(** * LibraryManagementApp: the Book record and the Library catalog

    A shallow embedding of [library_management.py].  Python values are
    modelled as follows.

    - [str] is a sequence of Unicode code points, [list N].
    - [int] is [Z].
    - A raised exception is the [Raise] constructor of [result].
    - The file named [self.data_file] is an [option str]: [None] when the
      file does not exist, otherwise the text stored in it.  Writing stores
      the text as it is (the newline written is U+000A, as on POSIX
      systems); reading goes through the newline translation of the text
      layer, [universal_newlines].
    - [input(...)] is an argument of the operation that calls it, and the
      lines given to [print] are returned as a list. *)

From Stdlib Require Import ZArith NArith List Lia Decimal DecimalPos DecimalZ String Ascii.
From stdpp Require Import base list gmap sorting.
From Equations Require Import Equations.

Local Open Scope N_scope.

(** ** Python built-ins used by the program *)

Module Py.

Abbreviation str := (list N).

(** Code points from a string literal of this file (UTF-8 bytes). *)
Fixpoint utf8_go (pending : N) (need : nat) (bs : list N) : str :=
  match bs with
  | [] => []
  | b :: bs' =>
      match need with
      | O =>
          if b <? 128 then b :: utf8_go 0 0 bs'
          else if b <? 224 then utf8_go (b - 192) 1 bs'
          else if b <? 240 then utf8_go (b - 224) 2 bs'
          else utf8_go (b - 240) 3 bs'
      | S n =>
          let p := pending * 64 + (b - 128) in
          match n with
          | O => p :: utf8_go 0 0 bs'
          | S _ => utf8_go p n bs'
          end
      end
  end.

Fixpoint bytes_of (s : string) : list N :=
  match s with
  | EmptyString => []
  | String a s' => N_of_ascii a :: bytes_of s'
  end.

Definition lit (s : string) : str := utf8_go 0 0 (bytes_of s).
Arguments lit s : simpl never.

Definition LF : N := 10.
Definition CR : N := 13.
Definition SEMI : N := 59.

(** [str.isspace] on one code point: the characters [str.strip()]
    removes. *)
Definition isspace (c : N) : bool :=
  ((9 <=? c) && (c <=? 13)) || ((28 <=? c) && (c <=? 32))
  || (c =? 133) || (c =? 160) || (c =? 5760)
  || ((8192 <=? c) && (c <=? 8202))
  || (c =? 8232) || (c =? 8233) || (c =? 8239) || (c =? 8287)
  || (c =? 12288).

Fixpoint lstrip (s : str) : str :=
  match s with
  | [] => []
  | c :: s' => if isspace c then lstrip s' else s
  end.

Fixpoint rstrip (s : str) : str :=
  match s with
  | [] => []
  | c :: s' =>
      match rstrip s' with
      | [] => if isspace c then [] else [c]
      | r => c :: r
      end
  end.

(** [s.strip()] *)
Definition strip (s : str) : str := rstrip (lstrip s).

(** [s.split(sep)] for a one-character separator: never an empty list. *)
Fixpoint split (sep : N) (s : str) : list str :=
  match s with
  | [] => [[]]
  | c :: s' =>
      if c =? sep then [] :: split sep s'
      else match split sep s' with
           | [] => [[c]]
           | p :: ps => (c :: p) :: ps
           end
  end.

(** [q in s] on strings. *)
Fixpoint startswith (p s : str) : bool :=
  match p, s with
  | [], _ => true
  | _ :: _, [] => false
  | a :: p', b :: s' => (a =? b) && startswith p' s'
  end.

Fixpoint contains (q s : str) : bool :=
  startswith q s ||
  match s with
  | [] => false
  | _ :: s' => contains q s'
  end.

(** Reading a file opened with [open(name, "r")], that is with the default
    [newline=None]: the line endings "\r\n" and "\r" of the stored text
    reach the program as "\n". *)
Fixpoint universal_newlines (text : str) : str :=
  match text with
  | [] => []
  | c :: text' =>
      if c =? CR then
        LF :: match text' with
              | c' :: text'' =>
                  if c' =? LF then universal_newlines text''
                  else universal_newlines text'
              | [] => []
              end
      else c :: universal_newlines text'
  end.

(** Breaking the text read at each newline: a line keeps its newline; the
    last line may lack one. *)
Fixpoint lines (text : str) : list str :=
  match text with
  | [] => []
  | c :: text' =>
      if c =? LF then [LF] :: lines text'
      else match lines text' with
           | [] => [[c]]
           | l :: ls => (c :: l) :: ls
           end
  end.

(** [for line in file], on the text stored in the file. *)
Definition file_lines (text : str) : list str :=
  lines (universal_newlines text).

(** [str(n)] for an integer. *)
Fixpoint chars_of_uint (u : uint) : str :=
  match u with
  | Nil => []
  | D0 u' => 48 :: chars_of_uint u'
  | D1 u' => 49 :: chars_of_uint u'
  | D2 u' => 50 :: chars_of_uint u'
  | D3 u' => 51 :: chars_of_uint u'
  | D4 u' => 52 :: chars_of_uint u'
  | D5 u' => 53 :: chars_of_uint u'
  | D6 u' => 54 :: chars_of_uint u'
  | D7 u' => 55 :: chars_of_uint u'
  | D8 u' => 56 :: chars_of_uint u'
  | D9 u' => 57 :: chars_of_uint u'
  end.

Definition py_str (n : Z) : str :=
  match Z.to_int n with
  | Pos u => chars_of_uint u
  | Neg u => 45 :: chars_of_uint u
  end.

(** [int(s)] in base 10.  The conversion first maps the string to ASCII:
    a character below U+007F stays; a character from there on becomes a
    space when [str.isspace] holds of it, its digit when it is a decimal
    digit of Unicode, and otherwise ends the number with an error.  The
    number is then read as ASCII whitespace, an optional sign, digits with
    single underscores allowed between them, and ASCII whitespace again.
    ASCII whitespace is U+0009..U+000D and U+0020: the separators
    U+001C..U+001F, which [str.strip()] removes, are no whitespace for
    [int()].  [None] is [ValueError]. *)
Definition int_space (c : N) : bool :=
  isspace c && negb ((28 <=? c) && (c <=? 31)).

Fixpoint int_lstrip (s : str) : str :=
  match s with
  | [] => []
  | c :: s' => if int_space c then int_lstrip s' else s
  end.

Fixpoint int_rstrip (s : str) : str :=
  match s with
  | [] => []
  | c :: s' =>
      match int_rstrip s' with
      | [] => if int_space c then [] else [c]
      | r => c :: r
      end
  end.

(** The code points of the digit zero of each run of ten decimal digits
    (general category Nd) beyond ASCII, from U+0660 ARABIC-INDIC DIGIT ZERO
    to U+1FBF0 SEGMENTED DIGIT ZERO, in the Unicode 14.0 database of
    CPython 3.11. *)
Definition decimal_zeros : list N :=
  [
    1632; 1776; 1984; 2406; 2534; 2662; 2790; 2918;
    3046; 3174; 3302; 3430; 3558; 3664; 3792; 3872;
    4160; 4240; 6112; 6160; 6470; 6608; 6784; 6800;
    6992; 7088; 7232; 7248; 42528; 43216; 43264; 43472;
    43504; 43600; 44016; 65296; 66720; 68912; 69734; 69872;
    69942; 70096; 70384; 70736; 70864; 71248; 71360; 71472;
    71904; 72016; 72784; 73040; 73120; 92768; 92864; 93008;
    120782; 120792; 120802; 120812; 120822; 123200; 123632; 125264;
    130032 ].

(** [Py_UNICODE_TODECIMAL] beyond ASCII. *)
Definition todecimal (c : N) : option N :=
  (fun zero => c - zero)
    <$> List.find (fun zero => (zero <=? c) && (c <=? zero + 9)) decimal_zeros.

Definition ascii_digit (c : N) : option (uint -> uint) :=
  match c with
  | 48 => Some D0 | 49 => Some D1 | 50 => Some D2 | 51 => Some D3
  | 52 => Some D4 | 53 => Some D5 | 54 => Some D6 | 55 => Some D7
  | 56 => Some D8 | 57 => Some D9
  | _ => None
  end.

Definition digit (c : N) : option (uint -> uint) :=
  if c <? 127 then ascii_digit c
  else if isspace c then None
  else todecimal c ≫= (fun d => ascii_digit (48 + d)).

Fixpoint parse_digits (s : str) : option uint :=
  match s with
  | [] => None
  | c :: s' =>
      match digit c with
      | None => None
      | Some d =>
          match s' with
          | [] => Some (d Nil)
          | c' :: s'' =>
              if c' =? 95 then d <$> parse_digits s''
              else d <$> parse_digits s'
          end
      end
  end.

Definition py_int (s : str) : option Z :=
  match int_rstrip (int_lstrip s) with
  | 43 :: ds => (fun u => Z.of_int (Pos u)) <$> parse_digits ds
  | 45 :: ds => (fun u => Z.of_int (Neg u)) <$> parse_digits ds
  | ds => (fun u => Z.of_int (Pos u)) <$> parse_digits ds
  end.

End Py.
Import Py.

(** ** Exceptions *)

Inductive exn := ValueError | IndexError.

Inductive result (A : Type) :=
| Ok (a : A)
| Raise (e : exn).
Arguments Ok {A} a.
Arguments Raise {A} e.

#[global] Instance result_bind : MBind result := fun A B k r =>
  match r with
  | Ok a => k a
  | Raise e => Raise e
  end.

(** [parts[i]] on a list: [IndexError] out of range. *)
Definition index {A} (l : list A) (i : nat) : result A :=
  match l !! i with
  | Some a => Ok a
  | None => Raise IndexError
  end.

(** [int(s)] as a call that may raise. *)
Definition int (s : str) : result Z :=
  match py_int s with
  | Some n => Ok n
  | None => Raise ValueError
  end.

(** [[f(x) for x in xs]] where [f] may raise: the first failure escapes. *)
Fixpoint comprehension {A B} (f : A -> result B) (xs : list A) : result (list B) :=
  match xs with
  | [] => Ok []
  | x :: xs' => y ← f x; ys ← comprehension f xs'; Ok (y :: ys)
  end.

(** ** class Book *)

Record Book := mkBook {
  book_id : Z;
  title : str;
  author : str;
  year : Z;
  status : str
}.

#[global] Instance Book_eq_dec : EqDecision Book.
Proof. solve_decision. Defined.

Definition AVAILABLE : str := Eval vm_compute in lit "в наличии".
Definition CHECKED_OUT : str := Eval vm_compute in lit "выдана".

Definition to_string (self : Book) : str :=
  py_str (book_id self) ++ SEMI :: title self ++ SEMI :: author self
    ++ SEMI :: py_str (year self) ++ SEMI :: status self.

(** [cls(int(parts[0]), parts[1], parts[2], int(parts[3]), parts[4])]:
    the arguments are evaluated from left to right. *)
Definition from_parts (parts : list str) : result Book :=
  p0 ← index parts 0; id ← int p0;
  p1 ← index parts 1;
  p2 ← index parts 2;
  p3 ← index parts 3; yr ← int p3;
  p4 ← index parts 4;
  Ok (mkBook id p1 p2 yr p4).

Definition from_string (string : str) : result Book :=
  let parts := split SEMI (strip string) in
  from_parts parts.

(** ** class Library *)

(** [sorted(books, key=lambda b: b.id)] and [books.sort(key=...)]: Python's
    sort is stable, so its result is the one produced by this insertion
    sort, which puts a record before the later records of equal id. *)
Fixpoint insert_by_id (b : Book) (l : list Book) : list Book :=
  match l with
  | [] => [b]
  | x :: l' =>
      if (book_id b <=? book_id x)%Z then b :: l else x :: insert_by_id b l'
  end.

Definition sorted (l : list Book) : list Book := foldr insert_by_id [] l.

(** [books] is [self.books]; [backing] is the content of the file named
    [self.data_file]. *)
Record Library := mkLibrary {
  books : list Book;
  backing : option str
}.

Definition load_data (backing : option str) : result (list Book) :=
  match backing with
  | Some text =>
      books ← comprehension from_string (file_lines text);
      Ok (sorted books)
  | None => Ok []                         (* except FileNotFoundError *)
  end.

(** [Library(data_file)] *)
Definition Library_init (backing : option str) : result Library :=
  books ← load_data backing; Ok (mkLibrary books backing).

Definition written (bs : list Book) : str :=
  concat (map (fun book => to_string book ++ [LF]) bs).

Definition save_data (self : Library) : Library :=
  mkLibrary (books self) (Some (written (sorted (books self)))).

(** The [while new_id in used_ids] loop.  It ends because every pass takes
    one more member of [used_ids] below [new_id]. *)
Equations? generate_id_loop (used_ids : gset Z) (new_id : Z) : Z
  by wf (size (filter (fun x => (new_id <= x)%Z) used_ids)) lt :=
  generate_id_loop used_ids new_id with decide (new_id ∈ used_ids) => {
    | left _ => generate_id_loop used_ids (new_id + 1);
    | right _ => new_id }.
Proof.
  apply subset_size, elem_of_subset. split.
  - intros x. rewrite !elem_of_filter. intros [? ?]. split; [lia | done].
  - intros H. specialize (H new_id). rewrite !elem_of_filter in H.
    destruct H as [? _]; [split; [lia | done] | lia].
Qed.

Definition generate_id (self : Library) : Z :=
  let used_ids : gset Z := list_to_set (map book_id (books self)) in
  generate_id_loop used_ids 1.

(** The texts the program prints, as code points. *)
Definition YEAR_NOT_A_NUMBER : str := Eval vm_compute in lit "Ошибка: год должен быть числом!".
Definition BOOK_ADDED : str := Eval vm_compute in lit "Книга успешно добавлена!".
Definition ID_NOT_A_NUMBER : str := Eval vm_compute in lit "Ошибка: ID должен быть числом!".
Definition BOOK_DELETED : str := Eval vm_compute in lit "Книга успешно удалена!".
Definition ID_NOT_FOUND : str := Eval vm_compute in lit "Книга с таким ID не найдена.".
Definition LIBRARY_EMPTY : str := Eval vm_compute in lit "Библиотека пуста.".
Definition BOOKS_FOUND : str := Eval vm_compute in lit "Найдены книги:".
Definition NOTHING_FOUND : str := Eval vm_compute in lit "Книг по запросу не найдено.".
Definition MENU_AVAILABLE : str := Eval vm_compute in lit "1 - в наличии".
Definition MENU_CHECKED_OUT : str := Eval vm_compute in lit "2 - выдана".
Definition SAME_STATUS : str := Eval vm_compute in lit "Книга уже имеет данный статус.".
Definition STATUS_UPDATED : str := Eval vm_compute in lit "Статус книги успешно обновлен!".
Definition BAD_CHOICE : str := Eval vm_compute in lit "Некорректный ввод.".

(** The pieces of the f-string of [display_books]:
    "| ID: {id} | Название: {title}, Автор: {author}, Год: {year}, Статус: {status}" *)
Definition F_ID : str := Eval vm_compute in lit "| ID: ".
Definition F_BAR : str := Eval vm_compute in lit " | ".
Definition F_TITLE : str := Eval vm_compute in lit "Название: ".
Definition F_AUTHOR : str := Eval vm_compute in lit ", Автор: ".
Definition F_YEAR : str := Eval vm_compute in lit ", Год: ".
Definition F_STATUS : str := Eval vm_compute in lit ", Статус: ".

(** The answers "1" and "2" of the status menu. *)
Definition ONE : str := Eval vm_compute in lit "1".
Definition TWO : str := Eval vm_compute in lit "2".

(** An operation returns the library after the call and the lines it
    printed. *)
Definition outcome : Type := Library * list str.

Definition add_book (self : Library) (in_title in_author in_year : str) : outcome :=
  let title := strip in_title in
  let author := strip in_author in
  match py_int (strip in_year) with
  | None => (self, [YEAR_NOT_A_NUMBER])
  | Some year =>
      let new_book := mkBook (generate_id self) title author year AVAILABLE in
      let self := mkLibrary (sorted (books self ++ [new_book])) (backing self) in
      (save_data self, [BOOK_ADDED])
  end.

(** [next((book for book in books if book.id == book_id), None)]: the first
    record with that id.  A record object is known by its position in the
    list, which is returned with it. *)
Fixpoint next_with_id (id : Z) (l : list Book) : option (nat * Book) :=
  match l with
  | [] => None
  | book :: l' =>
      if (book_id book =? id)%Z then Some (O, book)
      else prod_map S (fun b => b) <$> next_with_id id l'
  end.

Definition delete_book (self : Library) (in_id : str) : outcome :=
  match py_int (strip in_id) with
  | None => (self, [ID_NOT_A_NUMBER])
  | Some id =>
      match next_with_id id (books self) with
      | Some (k, _) =>
          let self := mkLibrary (delete k (books self)) (backing self) in
          (save_data self, [BOOK_DELETED])
      | None => (self, [ID_NOT_FOUND])
      end
  end.

Definition book_line (book : Book) : str :=
  F_ID ++ py_str (book_id book) ++ F_BAR
    ++ F_TITLE ++ title book ++ F_AUTHOR ++ author book
    ++ F_YEAR ++ py_str (year book) ++ F_STATUS ++ status book.

(** [books or self.books]: [None] and the empty list are both falsy. *)
Definition books_or (arg : option (list Book)) (default : list Book) : list Book :=
  match arg with
  | Some (b :: l) => b :: l
  | Some [] | None => default
  end.

(** ["-" * 100] *)
Definition rule : str := replicate 100 45.

Definition display_books (self : Library) (arg : option (list Book)) : outcome :=
  let books := books_or arg (books self) in
  match books with
  | [] => (self, [LIBRARY_EMPTY])
  | _ => (self, rule :: map book_line books)
  end.

Section Search.

(** [str.lower]: the case mapping of the Python runtime. *)
Variable lower : str -> str.

Definition matches (query : str) (book : Book) : bool :=
  contains query (lower (title book))
  || contains query (lower (author book))
  || bool_decide (query = py_str (year book)).

Definition search_results (self : Library) (in_query : str) : list Book :=
  let query := lower (strip in_query) in
  List.filter (matches query) (books self).

Definition search_books (self : Library) (in_query : str) : outcome :=
  let results := search_results self in_query in
  match results with
  | _ :: _ =>
      let '(self, shown) := display_books self (Some results) in
      (self, BOOKS_FOUND :: shown)
  | [] => (self, [NOTHING_FOUND])
  end.

End Search.

Definition set_status (book : Book) (new_status : str) : Book :=
  mkBook (book_id book) (title book) (author book) (year book) new_status.

Definition update_status (self : Library) (in_id in_choice : str) : outcome :=
  match py_int (strip in_id) with
  | None => (self, [ID_NOT_A_NUMBER])
  | Some id =>
      match next_with_id id (books self) with
      | Some (k, book) =>
          let menu := [MENU_AVAILABLE; MENU_CHECKED_OUT] in
          let choice := strip in_choice in
          if bool_decide (choice ∈ [ONE; TWO]) then
            let new_status :=
              if bool_decide (choice = ONE) then AVAILABLE else CHECKED_OUT in
            if bool_decide (status book = new_status) then
              (self, menu ++ [SAME_STATUS])
            else
              let self :=
                mkLibrary (<[k := set_status book new_status]> (books self))
                          (backing self) in
              (save_data self, menu ++ [STATUS_UPDATED])
          else (self, menu ++ [BAD_CHOICE])
      | None => (self, [ID_NOT_FOUND])
      end
  end.

(** A fixed case mapping for the examples: ASCII and basic Cyrillic. *)
Definition lower_basic (s : str) : str :=
  map (fun c => if ((65 <=? c) && (c <=? 90)) || ((1040 <=? c) && (c <=? 1071))
                then c + 32 else c) s.

Definition dune : Book := Eval vm_compute in mkBook 1 (lit "Dune") (lit "Herbert") 1965 AVAILABLE.
Definition solaris : Book := Eval vm_compute in mkBook 2 (lit "Solaris") (lit "Lem") 1961 AVAILABLE.

(** ** Vocabulary of the statements, and sample data *)

Definition no_trailing_space (s : str) : Prop :=
  ∀ c, last s = Some c → isspace c = false.

Definition blank (s : str) : Prop := Forall (fun c => isspace c = true) s.

Definition sign_or_digit (c : N) : Prop := c = 45 ∨ 48 ≤ c ≤ 57.

Definition worn : Book := Eval vm_compute in mkBook 1 (lit "Dune") (lit "Herbert") 1965 (lit "worn ").

Definition id_le (a b : Book) : Prop := (book_id a ≤ book_id b)%Z.

(** Ascending order of id, as a sort leaves the list. *)
Definition ascending (l : list Book) : Prop := StronglySorted id_le l.

Definition torn_file : str := Eval vm_compute in lit "1;Dune;Herbert;1965;в наличии
2;Solaris
".

Definition gapped_file : str := Eval vm_compute in lit "1;Dune;Herbert;1965;в наличии

2;Solaris;Lem;1961;в наличии
".

Definition shuffled_file : str := Eval vm_compute in lit "2;Solaris;Lem;1961;в наличии
1;Dune;Herbert;1965;в наличии
".

(** A text that stays on one line of a file: it holds neither of the
    characters that reading takes for a line ending. *)
Definition one_line (s : str) : Prop := (LF ∉ s) ∧ (CR ∉ s).

(** A record that the file format can hold: no field breaks the line or
    the field structure, and [strip] leaves the status alone. *)
Definition storable (b : Book) : Prop :=
  (SEMI ∉ title b) ∧ one_line (title b)
  ∧ (SEMI ∉ author b) ∧ one_line (author b)
  ∧ (SEMI ∉ status b) ∧ one_line (status b)
  ∧ no_trailing_space (status b).

Definition ids (self : Library) : list Z := map book_id (books self).

(** The lines that show the records of [l]. *)
Definition listing (l : list Book) : list str :=
  rule :: map book_line l.

(** [q] occurs in [s] as a run of consecutive characters. *)
Definition substring (q s : str) : Prop := ∃ pre post, s = pre ++ q ++ post.

(** The status a menu answer stands for. *)
Definition asks_for (choice new_status : str) : Prop :=
  (choice = ONE ∧ new_status = AVAILABLE)
  ∨ (choice = TWO ∧ new_status = CHECKED_OUT).

Inductive op :=
| AddBook (in_title in_author in_year : str)
| DeleteBook (in_id : str)
| UpdateStatus (in_id in_choice : str).

Definition exec (self : Library) (o : op) : Library :=
  match o with
  | AddBook in_title in_author in_year =>
      fst (add_book self in_title in_author in_year)
  | DeleteBook in_id => fst (delete_book self in_id)
  | UpdateStatus in_id in_choice => fst (update_status self in_id in_choice)
  end.

Definition run (self : Library) (ops : list op) : Library := foldl exec self ops.

(** What [input()] returns holds no newline. *)
Definition typed (o : op) : Prop :=
  match o with
  | AddBook in_title in_author _ => (LF ∉ in_title) ∧ (LF ∉ in_author)
  | _ => True
  end.

(** It can hold a carriage return.  This says that the title and the
    author typed hold none. *)
Definition no_carriage_return (o : op) : Prop :=
  match o with
  | AddBook in_title in_author _ => (CR ∉ in_title) ∧ (CR ∉ in_author)
  | _ => True
  end.

(** The id that starts a line of the backing file, as [from_string] reads
    it. *)
Definition line_id (line : str) : option Z :=
  head (split SEMI (strip line)) ≫= py_int.

Definition file_ids (backing : option str) : list (option Z) :=
  match backing with
  | Some text => line_id <$> file_lines text
  | None => []
  end.

(** The invariant of the catalog: distinct ids, in ascending order. *)
Definition consistent (self : Library) : Prop :=
  NoDup (ids self) ∧ ascending (books self).

(** The backing file holds the records as they are in memory. *)
Definition saved (self : Library) : Prop :=
  backing self = Some (written (books self)).

(** No record holds a line ending in its title, author or status. *)
Definition newline_free (self : Library) : Prop :=
  Forall (fun b => one_line (title b) ∧ one_line (author b)
                   ∧ one_line (status b))
         (books self).

Definition session : list op := Eval vm_compute in
  [ AddBook (lit "Dune") (lit "Herbert") (lit "1965");
    AddBook (lit "Solaris") (lit "Lem") (lit "1961");
    AddBook (lit "Emma") (lit "Austen") (lit "1815");
    DeleteBook (lit "2");
    UpdateStatus (lit "3") (lit "2");
    AddBook (lit "Ubik") (lit "Dick") (lit "1969") ].

(** An [add_book] call whose year answer is an integer. *)
Definition accepted_add (o : op) : Prop :=
  match o with
  | AddBook _ _ in_year => is_Some (py_int (strip in_year))
  | _ => False
  end.

(** A record as the program itself makes them: a positive id, title and
    author without whitespace at either end, one of the two statuses. *)
Definition program_made (b : Book) : Prop :=
  (1 ≤ book_id b)%Z
  ∧ strip (title b) = title b ∧ strip (author b) = author b
  ∧ (status b = AVAILABLE ∨ status b = CHECKED_OUT).

(** An operation whose title and author answers hold no line ending and
    no semicolon. *)
Definition clean (o : op) : Prop :=
  match o with
  | AddBook in_title in_author _ =>
      one_line in_title ∧ one_line in_author
      ∧ (SEMI ∉ in_title) ∧ (SEMI ∉ in_author)
  | _ => True
  end.

(** A title with a carriage return inside, "a\r0", as [input()] can
    return it. *)
Definition two_line_title : op := Eval vm_compute in
  AddBook [97; CR; 48] (lit "x") (lit "1").

(** A line that starts with U+001C, which [strip()] removes. *)
Definition separator_line : str := Eval vm_compute in
  28 :: lit "1;Dune;Herbert;1965;lost".

(** ** main *)

(** [input()] takes the next line of standard input, here a list of lines,
    and raises [EOFError] when there is none.  A call that reads from it
    either returns, with the lines it has not read, or is cut short by
    [EOFError], the library then being as it was. *)
Inductive after_call :=
| Returned (self : Library) (printed : list str) (stdin : list str)
| EOF (printed : list str).

Definition add_book_on (self : Library) (stdin : list str) : after_call :=
  match stdin with
  | in_title :: in_author :: in_year :: stdin' =>
      let '(self', printed) := add_book self in_title in_author in_year in
      Returned self' printed stdin'
  | _ => EOF []
  end.

Definition delete_book_on (self : Library) (stdin : list str) : after_call :=
  match stdin with
  | in_id :: stdin' =>
      let '(self', printed) := delete_book self in_id in
      Returned self' printed stdin'
  | [] => EOF []
  end.

Definition search_books_on (lower : str -> str) (self : Library)
    (stdin : list str) : after_call :=
  match stdin with
  | in_query :: stdin' =>
      let '(self', printed) := search_books lower self in_query in
      Returned self' printed stdin'
  | [] => EOF []
  end.

(** The status menu is shown, and its answer read, only when a record with
    the id was found; otherwise [update_status] never looks at the answer. *)
Definition update_status_on (self : Library) (stdin : list str) : after_call :=
  match stdin with
  | in_id :: stdin' =>
      match py_int (strip in_id) ≫= (fun id => next_with_id id (books self)) with
      | Some _ =>
          match stdin' with
          | in_choice :: stdin'' =>
              let '(self', printed) := update_status self in_id in_choice in
              Returned self' printed stdin''
          | [] => EOF [MENU_AVAILABLE; MENU_CHECKED_OUT]
          end
      | None =>
          let '(self', printed) := update_status self in_id [] in
          Returned self' printed stdin'
      end
  | [] => EOF []
  end.

Definition MENU : list str := Eval vm_compute in
  [ LF :: replicate 11 45 ++ lit "МЕНЮ" ++ replicate 11 45;
    lit "1 - Добавить книгу";
    lit "2 - Удалить книгу";
    lit "3 - Искать книгу";
    lit "4 - Отобразить все книги";
    lit "5 - Изменить статус книги";
    lit "6 - Выход" ].
Definition GOODBYE : str := Eval vm_compute in lit "Выход из приложения.".
Definition BAD_MENU_CHOICE : str :=
  Eval vm_compute in lit "Некорректный выбор. Попробуйте снова.".
Definition THREE : str := Eval vm_compute in lit "3".
Definition FOUR : str := Eval vm_compute in lit "4".
Definition FIVE : str := Eval vm_compute in lit "5".
Definition SIX : str := Eval vm_compute in lit "6".

(** The [if choice == ...] chain of the loop; [None] is the [break]. *)
Definition menu_call (lower : str -> str) (self : Library) (choice : str)
    (stdin : list str) : option after_call :=
  if bool_decide (choice = ONE) then Some (add_book_on self stdin)
  else if bool_decide (choice = TWO) then Some (delete_book_on self stdin)
  else if bool_decide (choice = THREE) then Some (search_books_on lower self stdin)
  else if bool_decide (choice = FOUR) then
    let '(self', printed) := display_books self None in
    Some (Returned self' printed stdin)
  else if bool_decide (choice = FIVE) then Some (update_status_on self stdin)
  else if bool_decide (choice = SIX) then None
  else Some (Returned self [BAD_MENU_CHOICE] stdin).

(** How the loop ends: with the [break] of choice 6, after which [main]
    returns; or with the [EOFError] that [input()] raises at the end of
    the input, which nothing catches: [main] raises it. *)
Inductive stop := Exited | EOFError.

Definition and_then (printed : list str) (r : Library * list str * stop)
    : Library * list str * stop :=
  let '(self, printed', e) := r in (self, printed ++ printed', e).

(** A value together with the fact that the expression evaluates to it. *)
Definition inspect {A : Type} (x : A) : {y : A | x = y} := exist _ x eq_refl.

(** The [while True] loop of [main]: it ends because every pass reads at
    least one line of the standard input. *)
Equations? main_loop (lower : str -> str) (self : Library) (stdin : list str)
    : Library * list str * stop by wf (length stdin) lt :=
  main_loop lower self [] := (self, MENU, EOFError);
  main_loop lower self (in_choice :: stdin')
    with inspect (menu_call lower self (strip in_choice) stdin') := {
    | exist _ None _ => (self, MENU ++ [GOODBYE], Exited);
    | exist _ (Some (EOF printed)) _ => (self, MENU ++ printed, EOFError);
    | exist _ (Some (Returned self' printed stdin'')) _ =>
        and_then (MENU ++ printed) (main_loop lower self' stdin'') }.
Proof.
  assert (length stdin'' ≤ length stdin')%nat; [|simpl; lia].
  unfold menu_call, add_book_on, delete_book_on, search_books_on,
    update_status_on in e.
  repeat case_match; try discriminate e;
    injection e as <- <- <-; simpl; lia.
Qed.

(** [Raise e]: [Library()] raised [e], before anything was read or
    printed.  [Ok (self, printed, how)]: the loop ran and ended as [how]
    says, by returning or by raising [EOFError], with the library [self]
    and the lines [printed]. *)
Definition main (lower : str -> str) (backing : option str) (stdin : list str)
    : result (Library * list str * stop) :=
  library ← Library_init backing;
  Ok (main_loop lower library stdin).

(** The lines to type for an operation: the menu choice, then the answers
    to its prompts. *)
Definition lines_of (self : Library) (o : op) : list str :=
  match o with
  | AddBook in_title in_author in_year => [ONE; in_title; in_author; in_year]
  | DeleteBook in_id => [TWO; in_id]
  | UpdateStatus in_id in_choice =>
      match py_int (strip in_id) ≫= (fun id => next_with_id id (books self)) with
      | Some _ => [FIVE; in_id; in_choice]
      | None => [FIVE; in_id]
      end
  end.

Fixpoint script (self : Library) (ops : list op) : list str :=
  match ops with
  | [] => []
  | o :: ops' => lines_of self o ++ script (exec self o) ops'
  end.

(** ** Runs of the program on small inputs *)

(** Closed decidable goals are settled by evaluation. *)
Ltac by_evaluation := apply (bool_decide_unpack _); by vm_compute.

Example lit_ex :
  lit "в наличии;" = [1074; 32; 1085; 1072; 1083; 1080; 1095; 1080; 1080; 59].
Proof. by vm_compute. Qed.

Example split_ex :
  split SEMI (lit "1;Dune;;x;") = [lit "1"; lit "Dune"; []; lit "x"; []].
Proof. by vm_compute. Qed.

Example strip_ex : strip (lit "  a b
") = lit "a b".
Proof. by vm_compute. Qed.

Example py_int_ex :
  map py_int [lit " -12_3 "; lit "007"; lit "1__0"; lit "+5"; lit "";
              lit "- 5"; lit "_1"; lit "1_"; lit "12a"]
  = [Some (-123)%Z; Some 7%Z; None; Some 5%Z; None; None; None; None; None].
Proof. by vm_compute. Qed.

(** [int()] beyond ASCII digits and ASCII whitespace: U+001C is refused,
    decimal digits of other scripts and the spaces U+00A0, U+2003 and
    U+0085 are accepted, U+00B2 SUPERSCRIPT TWO and U+007F are not. *)
Example py_int_unicode_ex :
  map py_int [[28; 49]; [49; 28]; [1633; 1634]; [160; 49; 160]; [65297; 65298];
              [8195; 53]; [178]; [45; 1635]; [49; 95; 1633]; [133; 49];
              [127; 49]; [130039]; [43; 2406; 95; 2407]; [1633; 32; 1634]]
  = [None; None; Some 12%Z; Some 1%Z; Some 12%Z;
     Some 5%Z; None; Some (-3)%Z; Some 11%Z; Some 1%Z;
     None; Some 7%Z; Some 1%Z; None].
Proof. by vm_compute. Qed.

Example py_str_ex : map py_str [0; -45; 1965]%Z = [lit "0"; lit "-45"; lit "1965"].
Proof. by vm_compute. Qed.

Example file_lines_ex :
  file_lines (lit "a
b

c") = [lit "a
"; lit "b
"; lit "
"; lit "c"].
Proof. by vm_compute. Qed.

(** "a\rb\r\nc\n\rd" is read as the lines "a\n", "b\n", "c\n", "\n",
    "d". *)
Example file_lines_carriage_return_ex :
  file_lines [97; CR; 98; CR; LF; 99; LF; CR; 100]
  = [[97; LF]; [98; LF]; [99; LF]; [LF]; [100]].
Proof. by vm_compute. Qed.

Example contains_ex :
  map (fun q => contains (lit q) (lit "herbert")) ["erb"; ""; "hat"; "herberts"]%string
  = [true; true; false; false].
Proof. by vm_compute. Qed.

Example delete_book_ex :
  let self := mkLibrary [dune; solaris; mkBook 3 [] [] 0 []] None in
  ids (fst (delete_book self (lit "2"))) = [1; 3]%Z
  ∧ snd (delete_book self (lit "2")) = [BOOK_DELETED]
  ∧ delete_book self (lit "7") = (self, [ID_NOT_FOUND])
  ∧ delete_book self (lit "two") = (self, [ID_NOT_A_NUMBER]).
Proof. by vm_compute. Qed.

Example search_year_ex :
  let old := mkBook 2 (lit "1965 and after") [] 1999 AVAILABLE in
  search_results lower_basic (mkLibrary [dune; old] None) (lit "1965") = [dune; old]
  ∧ search_results lower_basic (mkLibrary [dune; solaris] None) (lit "196") = []
  ∧ snd (search_books lower_basic (mkLibrary [dune; solaris] None) (lit "196"))
    = [NOTHING_FOUND].
Proof. by vm_compute. Qed.

Example display_books_ex :
  snd (display_books (mkLibrary [dune] None) None)
  = [rule; lit "| ID: 1 | Название: Dune, Автор: Herbert, Год: 1965, Статус: в наличии"].
Proof. by vm_compute. Qed.

Example from_string_ex :
  from_string (lit "1;Dune;Herbert;1965;lost ") = Ok (mkBook 1 (lit "Dune") (lit "Herbert") 1965 (lit "lost")).
Proof. by vm_compute. Qed.

Example generate_id_124 :
  generate_id (mkLibrary [mkBook 1 [] [] 0 []; mkBook 2 [] [] 0 []; mkBook 4 [] [] 0 []] None) = 3%Z.
Proof. by vm_compute. Qed.

Example add_book_ex :
  add_book (mkLibrary [] None) (lit " Dune ") (lit "Herbert") (lit "1965")
  = (mkLibrary [dune] (Some (lit "1;Dune;Herbert;1965;в наличии
")), [BOOK_ADDED]).
Proof. by vm_compute. Qed.

Example update_ex :
  fst (update_status (mkLibrary [dune; solaris] None) (lit "2") (lit "2"))
  = mkLibrary [dune; set_status solaris CHECKED_OUT]
      (Some (lit "1;Dune;Herbert;1965;в наличии
2;Solaris;Lem;1961;выдана
")).
Proof. by vm_compute. Qed.

Example search_ex :
  search_results lower_basic (mkLibrary [dune; solaris] None) (lit " LEM ") = [solaris].
Proof. by vm_compute. Qed.

Example main_ex :
  main lower_basic None
       [lit "1"; lit "Dune"; lit "Herbert"; lit "1965"; lit "4"; lit "6"; lit "2"]
  = Ok (mkLibrary [dune] (Some (written [dune])),
        MENU ++ [BOOK_ADDED] ++ MENU ++ listing [dune] ++ MENU ++ [GOODBYE],
        Exited).
Proof. by vm_compute. Qed.

Example main_eof_ex :
  main lower_basic (Some shuffled_file) [lit "5"; lit "1"]
  = Ok (mkLibrary [dune; solaris] (Some shuffled_file),
        MENU ++ [MENU_AVAILABLE; MENU_CHECKED_OUT], EOFError)
  ∧ main lower_basic (Some torn_file) [lit "6"] = Raise IndexError.
Proof. by vm_compute. Qed.

(** ** Facts about the built-ins *)

Lemma lstrip_head c s : isspace c = false → lstrip (c :: s) = c :: s.
Proof. intros H. simpl. by rewrite H. Qed.

Lemma rstrip_app_nonspace a c r :
  isspace c = false → rstrip (a ++ c :: r) = a ++ c :: rstrip r.
Proof.
  intros Hc. induction a as [|x a IH]; simpl.
  - rewrite Hc. by destruct (rstrip r).
  - rewrite IH. by destruct a.
Qed.

Lemma rstrip_blank ws : blank ws → rstrip ws = [].
Proof.
  induction 1 as [|c ws Hc _ IH]; simpl; [done|]. by rewrite IH, Hc.
Qed.

Lemma rstrip_app_blank s ws : blank ws → rstrip (s ++ ws) = rstrip s.
Proof.
  intros Hws. induction s as [|c s IH]; simpl.
  - by apply rstrip_blank.
  - by rewrite IH.
Qed.

Lemma rstrip_id s : no_trailing_space s → rstrip s = s.
Proof.
  unfold no_trailing_space. induction s as [|c s IH]; intros H; [done|].
  simpl. destruct s as [|d s].
  - simpl. by rewrite (H c eq_refl).
  - rewrite IH; [done|]. intros x Hx. apply H. by rewrite last_cons, Hx.
Qed.

Lemma rstrip_split s : ∃ ws, s = rstrip s ++ ws ∧ blank ws.
Proof.
  induction s as [|c s (ws & Hs & Hws)]; simpl.
  - exists []. split; [done | constructor].
  - destruct (rstrip s) as [|d r] eqn:Hr.
    + destruct (isspace c) eqn:Hc.
      * exists (c :: s). split; [done|]. simpl in Hs. subst ws. by constructor.
      * exists s. split; [done|]. simpl in Hs. by subst ws.
    + exists ws. split; [|done]. simpl. f_equal. exact Hs.
Qed.

Lemma elem_of_rstrip x s : x ∈ rstrip s → x ∈ s.
Proof.
  intros Hx. destruct (rstrip_split s) as (ws & Hs & _).
  rewrite Hs. apply elem_of_app. by left.
Qed.

Lemma rstrip_no_trailing_space s : no_trailing_space (rstrip s).
Proof.
  induction s as [|c s IH]; intros x Hx; [done|]. simpl in Hx.
  destruct (rstrip s) as [|d r] eqn:Hr.
  - destruct (isspace c) eqn:Hc; [done|]. simpl in Hx. congruence.
  - apply IH. exact Hx.
Qed.

Lemma strip_nospace s : Forall (fun c => isspace c = false) s → strip s = s.
Proof.
  intros Hs. unfold strip. destruct Hs as [|c s Hc Hs]; [done|].
  rewrite lstrip_head by done. apply rstrip_id.
  intros x Hx. apply last_Some_elem_of in Hx.
  assert (Hall : Forall (fun c => isspace c = false) (c :: s)) by by constructor.
  by eapply Forall_forall in Hall.
Qed.

Lemma split_app_sep sep a r :
  sep ∉ a → split sep (a ++ sep :: r) = a :: split sep r.
Proof.
  induction a as [|x a IH]; intros Hsep; simpl.
  - by rewrite N.eqb_refl.
  - apply not_elem_of_cons in Hsep as [Hx Ha].
    rewrite (proj2 (N.eqb_neq x sep)) by done. by rewrite IH.
Qed.

Lemma split_no_sep sep a : sep ∉ a → split sep a = [a].
Proof.
  induction a as [|x a IH]; intros Hsep; simpl; [done|].
  apply not_elem_of_cons in Hsep as [Hx Ha].
  rewrite (proj2 (N.eqb_neq x sep)) by done. by rewrite IH.
Qed.

Lemma split_length sep s : (1 ≤ length (split sep s))%nat.
Proof.
  induction s as [|c s IH]; simpl; [lia|].
  destruct (c =? sep); simpl; [lia|]. destruct (split sep s); simpl; lia.
Qed.

Lemma chars_of_uint_digits u : Forall (fun c => 48 ≤ c ≤ 57) (chars_of_uint u).
Proof. induction u; simpl; constructor; (lia || done). Qed.

Lemma py_str_chars n : Forall sign_or_digit (py_str n).
Proof.
  unfold py_str. destruct (Z.to_int n) as [u|u];
    [|constructor; [by left|]];
    (eapply Forall_impl; [apply chars_of_uint_digits|]); intros c Hc; by right.
Qed.

Lemma sign_or_digit_nospace c : sign_or_digit c → isspace c = false.
Proof.
  intros [->|H]; [reflexivity|].
  assert (c = 48 ∨ c = 49 ∨ c = 50 ∨ c = 51 ∨ c = 52
          ∨ c = 53 ∨ c = 54 ∨ c = 55 ∨ c = 56 ∨ c = 57) as Hc by lia.
  repeat destruct Hc as [->|Hc]; try reflexivity. by subst.
Qed.

Lemma py_str_not_elem n c : ¬ sign_or_digit c → c ∉ py_str n.
Proof.
  intros Hc Hin. apply Hc.
  by eapply Forall_forall in Hin; [|apply py_str_chars].
Qed.

Lemma py_str_no_semi n : SEMI ∉ py_str n.
Proof. apply py_str_not_elem. unfold sign_or_digit, SEMI. lia. Qed.

Lemma py_str_no_newline n : LF ∉ py_str n.
Proof. apply py_str_not_elem. unfold sign_or_digit, LF. lia. Qed.

Lemma py_str_no_carriage_return n : CR ∉ py_str n.
Proof. apply py_str_not_elem. unfold sign_or_digit, CR. lia. Qed.

Lemma to_int_nonnil n :
  match Z.to_int n with Pos u | Neg u => u ≠ Nil end.
Proof.
  destruct n; simpl; [done| |]; apply Unsigned.to_uint_nonnil.
Qed.

Lemma py_str_head n : ∃ c s, py_str n = c :: s ∧ isspace c = false.
Proof.
  pose proof (py_str_chars n) as Hall. pose proof (to_int_nonnil n) as Hnil.
  unfold py_str in *. destruct (Z.to_int n) as [u|u].
  - destruct u; try done; simpl in *; eexists _, _; (split; [done|]);
      apply sign_or_digit_nospace; by inversion Hall.
  - by eexists _, _.
Qed.

Lemma strip_py_str n : strip (py_str n) = py_str n.
Proof.
  apply strip_nospace. eapply Forall_impl; [apply py_str_chars|].
  apply sign_or_digit_nospace.
Qed.

Lemma parse_digits_chars u : u ≠ Nil → parse_digits (chars_of_uint u) = Some u.
Proof.
  induction u as [|u IH|u IH|u IH|u IH|u IH|u IH|u IH|u IH|u IH|u IH];
    intros Hu; [done|..]; clear Hu;
    (destruct u; [done|..]);
    specialize (IH ltac:(done)); simpl in IH |- *; by rewrite IH.
Qed.

Lemma int_space_isspace c : int_space c = true → isspace c = true.
Proof. unfold int_space. by intros [? _]%andb_true_iff. Qed.

Lemma int_lstrip_head c s : int_space c = false → int_lstrip (c :: s) = c :: s.
Proof. intros H. simpl. by rewrite H. Qed.

Lemma int_rstrip_cons_nonspace c s :
  int_space c = false → int_rstrip (c :: s) = c :: int_rstrip s.
Proof. intros Hc. simpl. rewrite Hc. by destruct (int_rstrip s). Qed.

Lemma int_rstrip_nospace s :
  Forall (fun c => int_space c = false) s → int_rstrip s = s.
Proof.
  induction 1 as [|c s Hc _ IH]; [done|].
  by rewrite int_rstrip_cons_nonspace, IH.
Qed.

Lemma int_strip_nospace s :
  Forall (fun c => int_space c = false) s → int_rstrip (int_lstrip s) = s.
Proof.
  intros Hs. destruct Hs as [|c s Hc Hs]; [done|].
  rewrite int_lstrip_head by done. apply int_rstrip_nospace. by constructor.
Qed.

Lemma sign_or_digit_no_int_space c : sign_or_digit c → int_space c = false.
Proof.
  intros H. apply sign_or_digit_nospace in H.
  destruct (int_space c) eqn:Hc; [|done]. apply int_space_isspace in Hc. congruence.
Qed.

Lemma int_strip_py_str n : int_rstrip (int_lstrip (py_str n)) = py_str n.
Proof.
  apply int_strip_nospace. eapply Forall_impl; [apply py_str_chars|].
  apply sign_or_digit_no_int_space.
Qed.

Lemma py_int_unsigned s :
  int_rstrip (int_lstrip s) = s → (∀ c s', s = c :: s' → c ≠ 43 ∧ c ≠ 45) →
  py_int s = (fun u => Z.of_int (Pos u)) <$> parse_digits s.
Proof.
  intros Hs Hc. unfold py_int. rewrite Hs.
  destruct s as [|c s']; [done|]. destruct (Hc c s' eq_refl) as [H43 H45].
  destruct c as [|p]; [done|].
  do 6 (try (destruct p as [p|p|]; try done)).
Qed.

Lemma py_int_py_str n : py_int (py_str n) = Some n.
Proof.
  pose proof (to_int_nonnil n) as Hnil. pose proof (DecimalZ.of_to n) as Hn.
  pose proof (int_strip_py_str n) as Hs. unfold py_str in *.
  destruct (Z.to_int n) as [u|u].
  - rewrite py_int_unsigned, parse_digits_chars by done || (
      intros c s' Hc; pose proof (chars_of_uint_digits u) as Hd;
      rewrite Hc in Hd; inversion Hd; lia).
    simpl. f_equal. exact Hn.
  - unfold py_int. rewrite Hs, parse_digits_chars by done. simpl. f_equal. exact Hn.
Qed.

(** A separator U+001C..U+001F is whitespace for [strip()] and not for
    [int()], which fails on a string that starts with one. *)
Lemma py_int_separator c s :
  isspace c = true → int_space c = false → py_int (c :: s) = None.
Proof.
  intros Hc Hi. unfold py_int.
  rewrite int_lstrip_head, int_rstrip_cons_nonspace by done.
  unfold int_space in Hi. rewrite Hc in Hi. simpl in Hi.
  apply negb_false_iff, andb_true_iff in Hi as [H1 H2].
  apply N.leb_le in H1, H2.
  assert (c = 28 ∨ c = 29 ∨ c = 30 ∨ c = 31) as Hcases by lia.
  destruct Hcases as [-> | [-> | [-> | ->]]]; reflexivity.
Qed.

(** What [strip()] removes at the start of a string that [int()] accepts
    is whitespace for [int()] too. *)
Lemma py_int_lstrip s i : py_int s = Some i → py_int (lstrip s) = Some i.
Proof.
  induction s as [|c s IH]; [done|]. simpl lstrip.
  destruct (isspace c) eqn:Hc; [|done].
  destruct (int_space c) eqn:Hi.
  - intros H. apply IH. revert H. unfold py_int. simpl int_lstrip. by rewrite Hi.
  - by rewrite py_int_separator.
Qed.

(** ** Book: encoding and decoding *)

Lemma from_string_parts line p0 p1 p2 p3 p4 rest i y :
  split SEMI (strip line) = p0 :: p1 :: p2 :: p3 :: p4 :: rest →
  py_int p0 = Some i → py_int p3 = Some y →
  from_string line = Ok (mkBook i p1 p2 y p4).
Proof.
  intros Hparts H0 H3. unfold from_string, from_parts, int, index.
  rewrite Hparts. simpl.
  rewrite H0. simpl. by rewrite H3.
Qed.

Lemma strip_to_string b ws :
  blank ws →
  strip (to_string b ++ ws)
  = py_str (book_id b) ++ SEMI :: title b ++ SEMI :: author b
      ++ SEMI :: py_str (year b) ++ SEMI :: rstrip (status b).
Proof.
  intros Hws. unfold strip, to_string.
  destruct (py_str_head (book_id b)) as (c & s & Hid & Hc). rewrite Hid.
  simpl app at 1. rewrite lstrip_head by done.
  repeat (rewrite <- app_assoc || rewrite <- app_comm_cons).
  change (c :: s ++ ?r) with ((c :: s) ++ r).
  rewrite rstrip_app_nonspace by done. do 2 f_equal.
  rewrite rstrip_app_nonspace by done. do 2 f_equal.
  rewrite rstrip_app_nonspace by done. do 2 f_equal.
  rewrite rstrip_app_nonspace by done. do 2 f_equal.
  by apply rstrip_app_blank.
Qed.

Lemma from_string_to_string_blank b ws :
  SEMI ∉ title b → SEMI ∉ author b → SEMI ∉ status b → blank ws →
  from_string (to_string b ++ ws) = Ok (set_status b (rstrip (status b))).
Proof.
  intros Ht Ha Hs Hws.
  apply (from_string_parts _ (py_str (book_id b)) _ _ (py_str (year b)) _ []);
    [|apply py_int_py_str..].
  rewrite strip_to_string by done.
  rewrite !split_app_sep by (done || apply py_str_no_semi).
  rewrite split_no_sep; [done|]. intros H. by apply Hs, elem_of_rstrip.
Qed.

(** C2, as stated, fails: a status that ends in a space has no semicolon,
    yet decoding the encoded record gives back the status without the
    space. *)
Lemma from_string_to_string_trailing_space :
  (SEMI ∉ title worn) ∧ (SEMI ∉ author worn) ∧ (SEMI ∉ status worn)
  ∧ from_string (to_string worn) = Ok (set_status worn (lit "worn"))
  ∧ from_string (to_string worn) ≠ Ok worn.
Proof.
  repeat split; try by_evaluation.
  vm_compute. discriminate.
Qed.

(** C2 (amended): for every Book whose title, author and status hold no
    semicolon and whose status does not end in a whitespace character,
    decoding the encoded line gives the Book back, field by field. *)
Theorem from_string_to_string b :
  SEMI ∉ title b → SEMI ∉ author b → SEMI ∉ status b →
  no_trailing_space (status b) →
  from_string (to_string b) = Ok b.
Proof.
  intros Ht Ha Hs Hsp.
  rewrite <- (app_nil_r (to_string b)).
  rewrite from_string_to_string_blank by (done || constructor).
  rewrite rstrip_id by done. by destruct b.
Qed.

Lemma from_string_to_string_witness : from_string (to_string dune) = Ok dune.
Proof.
  apply from_string_to_string;
    try by_evaluation.
  intros c Hc. vm_compute in Hc. injection Hc as <-. reflexivity.
Defined.

(** [strip] removes whitespace at both ends; what it removes at the start
    of a line lies in the id field. *)
Lemma lstrip_idemp s : lstrip (lstrip s) = lstrip s.
Proof.
  induction s as [|c s IH]; [done|]. simpl.
  destruct (isspace c) eqn:Hc; [done|]. simpl. by rewrite Hc.
Qed.

Lemma rstrip_cons_nonspace c s : isspace c = false → rstrip (c :: s) = c :: rstrip s.
Proof. intros Hc. simpl. rewrite Hc. by destruct (rstrip s). Qed.

Lemma strip_comm s : strip s = lstrip (rstrip s).
Proof.
  unfold strip. induction s as [|c s IH]; [done|].
  destruct (isspace c) eqn:Hc.
  - simpl. rewrite Hc, IH. destruct (rstrip s); simpl; by rewrite ?Hc.
  - rewrite rstrip_cons_nonspace, !lstrip_head by done.
    by rewrite rstrip_cons_nonspace.
Qed.

Lemma split_lstrip s :
  ∃ p ps, split SEMI s = p :: ps ∧ split SEMI (lstrip s) = lstrip p :: ps.
Proof.
  induction s as [|c s (p & ps & Hs & Hl)]; [by exists [], []|].
  destruct (isspace c) eqn:Hc.
  - assert ((c =? SEMI) = false) as Hne
        by (apply N.eqb_neq; intros ->; discriminate).
    simpl. rewrite Hc, Hne, Hs. exists (c :: p), ps. simpl. by rewrite Hc.
  - rewrite lstrip_head by done. simpl.
    destruct (c =? SEMI); [by exists [], (split SEMI s)|].
    rewrite Hs. exists (c :: p), ps. by rewrite lstrip_head.
Qed.

Lemma split_strip line p0 rest :
  split SEMI (rstrip line) = p0 :: rest →
  split SEMI (strip line) = lstrip p0 :: rest.
Proof.
  rewrite strip_comm.
  destruct (split_lstrip (rstrip line)) as (p & ps & -> & Hl).
  by intros [= <- <-].
Qed.

(** C6, as stated, fails: the line is stripped at both ends, not only at
    its end.  On this line, which starts with U+001C, the part before the
    first semicolon is no integer once only the trailing whitespace is
    taken off, and yet the line decodes: [strip()] has removed the U+001C
    that [int()] would have refused. *)
Lemma from_string_leading_separator :
  split SEMI (rstrip separator_line)
  = [28 :: lit "1"; lit "Dune"; lit "Herbert"; lit "1965"; lit "lost"]
  ∧ py_int (28 :: lit "1") = None
  ∧ from_string separator_line
    = Ok (mkBook 1 (lit "Dune") (lit "Herbert") 1965 (lit "lost"))
  ∧ ¬ (∃ e, from_string separator_line = Raise e).
Proof.
  split; [by vm_compute|]. split; [by vm_compute|]. split; [by vm_compute|].
  intros [e He]. vm_compute in He. discriminate He.
Qed.

(** C6 (amended): [from_string] splits the line, stripped of the
    whitespace at both ends, on semicolons; it raises exactly when there
    are fewer than 5 parts or part 0 or part 3 is not an integer; on 5
    parts with integer id and year it returns the Book made of them. *)
Theorem from_string_raises_iff line :
  let parts := split SEMI (strip line) in
  ((∃ e, from_string line = Raise e) ↔
     (length parts < 5)%nat
     ∨ (∃ p, parts !! 0%nat = Some p ∧ py_int p = None)
     ∨ (∃ p, parts !! 3%nat = Some p ∧ py_int p = None))
  ∧ (∀ p0 p1 p2 p3 p4 i y,
       parts = [p0; p1; p2; p3; p4] →
       py_int p0 = Some i → py_int p3 = Some y →
       from_string line = Ok (mkBook i p1 p2 y p4)).
Proof.
  intros parts. unfold from_string. fold parts. clearbody parts. split.
  - unfold from_parts, index, int.
    destruct parts as [|p0 [|p1 [|p2 [|p3 [|p4 rest]]]]]; simpl;
      try destruct (py_int p0) eqn:H0; simpl;
      try destruct (py_int p3) eqn:H3; simpl.
    all: split;
      [ intros [e He];
        first [ discriminate He
              | left; simpl; lia
              | right; left; by eexists
              | right; right; by eexists ]
      | intros Hcase; first [ by eexists | exfalso ];
        destruct Hcase as [Hlen | [(p & Hp & Hnone) | (p & Hp & Hnone)]];
        simpl in *; first [ lia | congruence ] ].
  - intros p0 p1 p2 p3 p4 i y -> H0 H3.
    unfold from_parts, index, int. simpl. rewrite H0. simpl. by rewrite H3.
Qed.

Lemma from_string_raises_iff_witness :
  from_string (lit "  7;Dune;Herbert; 1965 ;lost
") = Ok (mkBook 7 (lit "Dune") (lit "Herbert") 1965 (lit "lost")).
Proof.
  apply (proj2 (from_string_raises_iff _)
           (lit "7") (lit "Dune") (lit "Herbert") (lit " 1965 ") (lit "lost"));
    reflexivity.
Defined.

(** ** Sorting by id *)

Lemma insert_by_id_perm b l : insert_by_id b l ≡ₚ b :: l.
Proof.
  induction l as [|x l IH]; simpl; [done|].
  destruct (book_id b <=? book_id x)%Z; [done|].
  rewrite IH. apply Permutation_swap.
Qed.

Lemma sorted_perm l : sorted l ≡ₚ l.
Proof.
  induction l as [|x l IH]; simpl; [done|].
  by rewrite insert_by_id_perm, IH.
Qed.

Lemma insert_by_id_ascending b l : ascending l → ascending (insert_by_id b l).
Proof.
  unfold ascending. induction 1 as [|x l Hl IH Hx]; simpl.
  - repeat constructor.
  - destruct (Z.leb_spec (book_id b) (book_id x)) as [Hle|Hlt].
    + constructor; [by constructor|]. constructor; [done|].
      eapply Forall_impl; [exact Hx|]. unfold id_le. intros; lia.
    + constructor; [done|]. rewrite insert_by_id_perm.
      constructor; [unfold id_le; lia | done].
Qed.

Lemma sorted_ascending l : ascending (sorted l).
Proof.
  induction l as [|x l IH]; simpl; [constructor|].
  by apply insert_by_id_ascending.
Qed.

Lemma sorted_id l : ascending l → sorted l = l.
Proof.
  unfold ascending. induction 1 as [|x l Hl IH Hx]; simpl; [done|].
  rewrite IH. destruct Hx as [|y l Hy _]; simpl; [done|].
  unfold id_le in Hy. by rewrite (proj2 (Z.leb_le _ _) Hy).
Qed.

(** ** Reading and writing the backing file *)

Lemma universal_newlines_id text : CR ∉ text → universal_newlines text = text.
Proof.
  induction text as [|c text IH]; intros H; [done|].
  apply not_elem_of_cons in H as [Hc Ht]. simpl.
  rewrite (proj2 (N.eqb_neq c CR)) by done. by rewrite IH.
Qed.

Lemma lines_app_newline a r :
  LF ∉ a → lines (a ++ LF :: r) = (a ++ [LF]) :: lines r.
Proof.
  induction a as [|x a IH]; intros Ha; simpl; [done|].
  apply not_elem_of_cons in Ha as [Hx Ha].
  rewrite (proj2 (N.eqb_neq x LF)) by done. by rewrite IH.
Qed.

Lemma lines_written bs :
  Forall (fun b => LF ∉ to_string b) bs →
  lines (written bs) = map (fun b => to_string b ++ [LF]) bs.
Proof.
  unfold written. induction 1 as [|b bs Hb _ IH]; simpl; [done|].
  rewrite <- app_assoc. simpl. by rewrite lines_app_newline, IH.
Qed.

Lemma written_no_carriage_return bs :
  Forall (fun b => CR ∉ to_string b) bs → CR ∉ written bs.
Proof.
  unfold written. induction 1 as [|b bs Hb _ IH]; simpl.
  - apply not_elem_of_nil.
  - rewrite <- app_assoc. simpl. rewrite elem_of_app, elem_of_cons.
    intros [H | [H | H]]; [done | discriminate H | done].
Qed.

(** Records that each stay on one line are read back line by line as they
    were written. *)
Lemma file_lines_written bs :
  Forall (fun b => one_line (to_string b)) bs →
  file_lines (written bs) = map (fun b => to_string b ++ [LF]) bs.
Proof.
  intros Hbs. unfold file_lines.
  rewrite universal_newlines_id.
  - apply lines_written. eapply Forall_impl; [exact Hbs|]. by intros b [? _].
  - apply written_no_carriage_return.
    eapply Forall_impl; [exact Hbs|]. by intros b [_ ?].
Qed.

Lemma comprehension_ok {A B} (f : A → result B) xs ys :
  Forall2 (fun x y => f x = Ok y) xs ys → comprehension f xs = Ok ys.
Proof.
  induction 1 as [|x y xs ys Hx _ IH]; simpl; [done|].
  rewrite Hx. simpl. by rewrite IH.
Qed.

Lemma comprehension_ok_inv {A B} (f : A → result B) xs ys :
  comprehension f xs = Ok ys → Forall2 (fun x y => f x = Ok y) xs ys.
Proof.
  revert ys. induction xs as [|x xs IH]; simpl; intros ys Hys.
  - injection Hys as <-. constructor.
  - destruct (f x) as [y|e] eqn:Hx; [|done]. simpl in Hys.
    destruct (comprehension f xs) as [ys'|e]; [|done].
    injection Hys as <-. constructor; [done|]. by apply IH.
Qed.

Lemma comprehension_raise_first {A B} (f : A → result B) good ys x rest e :
  Forall2 (fun x y => f x = Ok y) good ys → f x = Raise e →
  comprehension f (good ++ x :: rest) = Raise e.
Proof.
  intros Hgood Hx. induction Hgood as [|g y good ys Hg _ IH]; simpl.
  - by rewrite Hx.
  - rewrite Hg. simpl. by rewrite IH.
Qed.

Lemma comprehension_raise {A B} (f : A → result B) xs x e :
  x ∈ xs → f x = Raise e → ∃ e', comprehension f xs = Raise e'.
Proof.
  intros Hin Hx. induction Hin as [x xs|x y xs _ IH]; simpl.
  - rewrite Hx. by eexists.
  - destruct (f y); [|by eexists]. simpl.
    destruct (IH Hx) as [e' ->]. by eexists.
Qed.

Lemma from_string_blank line : blank line → from_string line = Raise ValueError.
Proof.
  intros Hb. unfold from_string. rewrite strip_comm, rstrip_blank by done.
  reflexivity.
Qed.

(** C4: a missing backing file loads as the empty list, without an error;
    a line that fails to decode makes [load_data] raise: the exception of
    the first such line escapes. *)
Theorem load_data_errors :
  load_data None = Ok []
  ∧ (∀ text line e,
       line ∈ file_lines text → from_string line = Raise e →
       ∃ e', load_data (Some text) = Raise e')
  ∧ (∀ text good decoded line rest e,
       file_lines text = good ++ line :: rest →
       Forall2 (fun l b => from_string l = Ok b) good decoded →
       from_string line = Raise e →
       load_data (Some text) = Raise e).
Proof.
  split; [done|]. split.
  - intros text line e Hin Hline. unfold load_data.
    destruct (comprehension_raise from_string _ _ _ Hin Hline) as [e' ->].
    by eexists.
  - intros text good decoded line rest e Hlines Hgood Hline. unfold load_data.
    rewrite Hlines.
    by rewrite (comprehension_raise_first _ _ _ _ _ _ Hgood Hline).
Qed.

Lemma load_data_errors_witness : load_data (Some torn_file) = Raise IndexError.
Proof.
  apply (proj2 (proj2 load_data_errors) torn_file
           [lit "1;Dune;Herbert;1965;в наличии
"] [dune] (lit "2;Solaris
") []).
  - reflexivity.
  - repeat constructor.
  - reflexivity.
Defined.

(** C5, as stated, fails: the empty second line of this file is decoded
    like any other, and the load raises. *)
Lemma load_data_empty_line :
  [LF] ∈ file_lines gapped_file ∧ load_data (Some gapped_file) = Raise ValueError.
Proof. split; [|reflexivity]. by_evaluation. Qed.

(** C5 (amended): [load_data] decodes every line of the backing file, the
    empty and whitespace-only ones too.  When every line decodes, the
    result is the decoded Books sorted by ascending id; a whitespace-only
    line does not decode and makes the load raise. *)
Theorem load_data_every_line :
  (∀ text decoded,
     Forall2 (fun l b => from_string l = Ok b) (file_lines text) decoded →
     load_data (Some text) = Ok (sorted decoded)
     ∧ sorted decoded ≡ₚ decoded ∧ ascending (sorted decoded))
  ∧ (∀ text bs,
       load_data (Some text) = Ok bs →
       ∃ decoded,
         Forall2 (fun l b => from_string l = Ok b) (file_lines text) decoded
         ∧ bs = sorted decoded)
  ∧ (∀ text line,
       line ∈ file_lines text → blank line →
       ∃ e, load_data (Some text) = Raise e).
Proof.
  split; [|split].
  - intros text decoded Hall. split; [|split].
    + unfold load_data. by rewrite (comprehension_ok _ _ _ Hall).
    + apply sorted_perm.
    + apply sorted_ascending.
  - intros text bs Hload. unfold load_data in Hload.
    destruct (comprehension from_string (file_lines text)) as [decoded|e] eqn:Hc;
      [|done].
    exists decoded. split; [by apply comprehension_ok_inv|].
    simpl in Hload. by injection Hload.
  - intros text line Hin Hblank.
    pose proof (from_string_blank line Hblank) as Hline.
    destruct (comprehension_raise from_string _ _ _ Hin Hline) as [e He].
    exists e. unfold load_data. by rewrite He.
Qed.

Lemma load_data_every_line_witness :
  load_data (Some shuffled_file) = Ok (sorted [solaris; dune])
  ∧ sorted [solaris; dune] = [dune; solaris].
Proof.
  split; [|reflexivity].
  destruct (proj1 load_data_every_line shuffled_file [solaris; dune])
    as (Hload & _ & _); [|exact Hload].
  change (file_lines shuffled_file) with
    [lit "2;Solaris;Lem;1961;в наличии
"; lit "1;Dune;Herbert;1965;в наличии
"].
  repeat constructor.
Defined.

Lemma not_elem_of_app_cons (c x : N) a r :
  c ∉ a → c ≠ x → c ∉ r → c ∉ a ++ x :: r.
Proof.
  intros Ha Hx Hr. rewrite elem_of_app, elem_of_cons. tauto.
Qed.

Lemma to_string_one_line b :
  one_line (title b) → one_line (author b) → one_line (status b) →
  one_line (to_string b).
Proof.
  intros [Ht Ht'] [Ha Ha'] [Hs Hs']. unfold to_string. split.
  - repeat (apply not_elem_of_app_cons; [done || apply py_str_no_newline|done|]).
    done.
  - repeat (apply not_elem_of_app_cons;
            [done || apply py_str_no_carriage_return|done|]).
    done.
Qed.

Lemma load_data_written bs :
  Forall storable bs → load_data (Some (written bs)) = Ok (sorted bs).
Proof.
  intros Hbs. unfold load_data.
  rewrite file_lines_written.
  2: { eapply Forall_impl; [exact Hbs|].
       intros b (_ & ? & _ & ? & _ & ? & _). by apply to_string_one_line. }
  rewrite (comprehension_ok _ _ bs); [done|].
  induction Hbs as [|b bs (? & _ & ? & _ & ? & _ & ?) _ IH]; simpl;
    constructor; [|done].
  rewrite from_string_to_string_blank by (done || by repeat constructor).
  rewrite rstrip_id by done. by destruct b.
Qed.

(** C10: [from_string] does not check the status.  Whatever the fifth part
    of the line is, it becomes the status of the Book returned, so
    [load_data] can return records whose status is neither of the two
    labels. *)
Theorem from_string_any_status :
  (∀ line p0 p1 p2 p3 s rest i y,
     split SEMI (rstrip line) = p0 :: p1 :: p2 :: p3 :: s :: rest →
     py_int p0 = Some i → py_int p3 = Some y →
     from_string line = Ok (mkBook i p1 p2 y s))
  ∧ (∀ b, storable b → load_data (Some (written [b])) = Ok [b])
  ∧ (∃ text b,
       load_data (Some text) = Ok [b]
       ∧ status b ≠ AVAILABLE ∧ status b ≠ CHECKED_OUT).
Proof.
  split; [|split].
  - intros line p0 p1 p2 p3 s rest i y Hparts H0 H3.
    unfold from_string. rewrite (split_strip _ _ _ Hparts).
    unfold from_parts, index, int. simpl.
    rewrite (py_int_lstrip _ _ H0). simpl. by rewrite H3.
  - intros b Hb. rewrite load_data_written by by constructor. done.
  - exists (lit "1;Dune;Herbert;1965;lost
"), (mkBook 1 (lit "Dune") (lit "Herbert") 1965 (lit "lost")).
    split; [reflexivity|]. split; by vm_compute.
Qed.

Lemma from_string_any_status_witness :
  from_string (lit "1;Dune;Herbert;1965;lost;found
") = Ok (mkBook 1 (lit "Dune") (lit "Herbert") 1965 (lit "lost"))
  ∧ load_data (Some (written [worn])) = Ok [set_status worn (lit "worn")]
  ∧ load_data (Some (written [set_status worn (lit "worn")]))
    = Ok [set_status worn (lit "worn")].
Proof.
  split; [|split].
  - apply (proj1 from_string_any_status _
             (lit "1") (lit "Dune") (lit "Herbert") (lit "1965") (lit "lost")
             [lit "found"]); reflexivity.
  - reflexivity.
  - apply (proj1 (proj2 from_string_any_status)).
    repeat split; try by_evaluation.
    intros c Hc. vm_compute in Hc. injection Hc as <-. reflexivity.
Defined.

(** ** generate_id *)

Lemma generate_id_loop_spec used_ids new_id :
  let r := generate_id_loop used_ids new_id in
  (new_id ≤ r)%Z ∧ (r ∉ used_ids)
  ∧ ∀ k, (new_id ≤ k < r)%Z → k ∈ used_ids.
Proof.
  funelim (generate_id_loop used_ids new_id).
  - match goal with IH : _ ∧ _ ∧ _ |- _ => destruct IH as (Hle & Hnot & Hall) end.
    split; [lia|]. split; [done|]. intros k Hk.
    destruct (decide (k = new_id)) as [->|Hne]; [done|]. apply Hall. lia.
  - split; [lia|]. split; [done|]. intros k Hk. lia.
Qed.

Lemma generate_id_spec self :
  (1 ≤ generate_id self)%Z
  ∧ (generate_id self ∉ ids self)
  ∧ ∀ k, (1 ≤ k < generate_id self)%Z → k ∈ ids self.
Proof.
  unfold generate_id, ids.
  destruct (generate_id_loop_spec (list_to_set (map book_id (books self))) 1)
    as (Hle & Hnot & Hall).
  split; [done|]. split.
  - intros Hin. apply Hnot. by apply elem_of_list_to_set.
  - intros k Hk. specialize (Hall k Hk). by apply elem_of_list_to_set in Hall.
Qed.

(** C3: [generate_id] returns the smallest positive integer that is not
    the id of a record of the catalog; with ids 1, 2, 4 it returns 3 and
    with ids 1, 2, 3 it returns 4. *)
Theorem generate_id_smallest self :
  ((1 ≤ generate_id self)%Z
   ∧ (generate_id self ∉ ids self)
   ∧ ∀ k, (1 ≤ k)%Z → k ∉ ids self → (generate_id self ≤ k)%Z)
  ∧ ((∀ k, k ∈ ids self ↔ k ∈ [1; 2; 4]%Z) → generate_id self = 3%Z)
  ∧ ((∀ k, k ∈ ids self ↔ k ∈ [1; 2; 3]%Z) → generate_id self = 4%Z).
Proof.
  destruct (generate_id_spec self) as (Hle & Hnot & Hall).
  assert (Hmin : ∀ k, (1 ≤ k)%Z → k ∉ ids self → (generate_id self ≤ k)%Z).
  { intros k Hk Hfree. destruct (Z.le_gt_cases (generate_id self) k); [done|].
    exfalso. apply Hfree, Hall. lia. }
  split; [done|]. split; intros Hids.
  - assert (generate_id self ≤ 3)%Z.
    { apply Hmin; [lia|]. rewrite Hids, !elem_of_cons, elem_of_nil. lia. }
    rewrite Hids, !elem_of_cons, elem_of_nil in Hnot.
    assert (generate_id self ≠ 0)%Z by lia. lia.
  - assert (generate_id self ≤ 4)%Z.
    { apply Hmin; [lia|]. rewrite Hids, !elem_of_cons, elem_of_nil. lia. }
    rewrite Hids, !elem_of_cons, elem_of_nil in Hnot. lia.
Qed.

Lemma generate_id_smallest_witness :
  generate_id (mkLibrary [dune; solaris; mkBook 4 [] [] 0 []] None) = 3%Z
  ∧ generate_id (mkLibrary [dune; solaris; mkBook 3 [] [] 0 []] None) = 4%Z.
Proof.
  split.
  - apply (proj1 (proj2 (generate_id_smallest _))). intros k. reflexivity.
  - apply (proj2 (proj2 (generate_id_smallest _))). intros k. reflexivity.
Defined.

(** ** display_books *)

Lemma book_line_not_notice b : book_line b ≠ LIBRARY_EMPTY.
Proof.
  unfold book_line. intros H.
  apply (f_equal (fun s => head s)) in H. vm_compute in H. discriminate.
Qed.

Lemma listing_not_notice l : listing l ≠ [LIBRARY_EMPTY].
Proof. unfold listing. intros H. injection H as H _. vm_compute in H. discriminate. Qed.

(** C9, as stated, fails: handed the empty subset, [display_books] shows
    the whole catalog, as it does when handed no subset at all. *)
Lemma display_books_empty_subset :
  let self := mkLibrary [dune] None in
  snd (display_books self (Some [])) = listing [dune]
  ∧ snd (display_books self (Some [])) = snd (display_books self None)
  ∧ snd (display_books self (Some [])) ≠ listing []
  ∧ snd (display_books self (Some [])) ≠ [LIBRARY_EMPTY].
Proof.
  repeat split; try reflexivity.
  - intros H. vm_compute in H. discriminate.
  - apply listing_not_notice.
Qed.

(** C9 (amended): handed a non-empty list of records, [display_books]
    shows exactly that list; handed no list or the empty list, it shows the
    whole catalog.  For a subset of the catalog it prints the "empty"
    notice precisely when the catalog has no records.  It never changes
    the library. *)
Theorem display_books_shows self arg :
  fst (display_books self arg) = self
  ∧ (∀ b l, arg = Some (b :: l) →
       snd (display_books self arg) = listing (b :: l))
  ∧ (arg = None ∨ arg = Some [] →
       snd (display_books self arg)
       = match books self with [] => [LIBRARY_EMPTY] | bs => listing bs end)
  ∧ (match arg with Some sub => sub ⊆ books self | None => True end →
       (snd (display_books self arg) = [LIBRARY_EMPTY] ↔ books self = [])).
Proof.
  split; [|split; [|split]].
  - unfold display_books. by destruct (books_or arg (books self)).
  - by intros b l ->.
  - intros [-> | ->]; unfold display_books; cbn [books_or];
      by destruct (books self).
  - intros Hsub. unfold display_books.
    destruct arg as [[|b l]|]; cbn [books_or].
    + destruct (books self) as [|x bs]; cbn [snd]; [done|].
      split; [|done]. intros H. by apply (listing_not_notice (x :: bs)) in H.
    + cbn [snd]. split.
      * intros H. by apply (listing_not_notice (b :: l)) in H.
      * intros Hnil. rewrite Hnil in Hsub.
        specialize (Hsub b ltac:(by left)). by apply elem_of_nil in Hsub.
    + destruct (books self) as [|x bs]; cbn [snd]; [done|].
      split; [|done]. intros H. by apply (listing_not_notice (x :: bs)) in H.
Qed.

Lemma display_books_shows_witness :
  snd (display_books (mkLibrary [dune; solaris] None) (Some [solaris]))
  = listing [solaris]
  ∧ snd (display_books (mkLibrary [] None) (Some [])) = [LIBRARY_EMPTY]
  ∧ (snd (display_books (mkLibrary [] None) None) = [LIBRARY_EMPTY]
     ↔ books (mkLibrary [] None) = []).
Proof.
  split; [|split].
  - by apply (proj1 (proj2 (display_books_shows _ _)) solaris []).
  - exact (proj1 (proj2 (proj2 (display_books_shows (mkLibrary [] None) (Some []))))
             (or_intror eq_refl)).
  - exact (proj2 (proj2 (proj2 (display_books_shows (mkLibrary [] None) None))) I).
Defined.

(** ** search_books *)

Lemma startswith_spec p s : startswith p s = true ↔ ∃ post, s = p ++ post.
Proof.
  revert s. induction p as [|a p IH]; intros s; simpl.
  - split; [by exists s | done].
  - destruct s as [|b s].
    + split; [done | by intros [post ?]].
    + rewrite andb_true_iff, N.eqb_eq, IH. split.
      * intros [-> [post ->]]. by exists post.
      * intros [post H]. injection H as -> ->. split; [done | by exists post].
Qed.

Lemma contains_spec q s : contains q s = true ↔ substring q s.
Proof.
  unfold substring. induction s as [|c s IH]; simpl.
  - rewrite orb_false_r, startswith_spec. split.
    + intros [post H]. by exists [], post.
    + intros (pre & post & H). destruct pre; [by exists post|done].
  - rewrite orb_true_iff, startswith_spec, IH. split.
    + intros [[post H] | (pre & post & H)].
      * by exists [], post.
      * exists (c :: pre), post. simpl. by rewrite H.
    + intros (pre & post & H). destruct pre as [|x pre].
      * left. by exists post.
      * right. injection H as -> H. by exists pre, post.
Qed.

Lemma filter_sublist {A} (f : A → bool) l : List.filter f l `sublist_of` l.
Proof.
  induction l as [|x l IH]; simpl; [constructor|].
  destruct (f x); by constructor.
Qed.

Lemma StronglySorted_sublist {A} (R : relation A) l1 l2 :
  l1 `sublist_of` l2 → StronglySorted R l2 → StronglySorted R l1.
Proof.
  induction 1 as [|x l1 l2 Hsub IH|x l1 l2 Hsub IH]; intros Hs; [done|..];
    apply StronglySorted_inv in Hs as [Hs Hx].
  - constructor; [by apply IH|].
    apply Forall_forall. intros y Hy.
    eapply Forall_forall in Hx; [exact Hx|]. by eapply elem_of_sublist.
  - by apply IH.
Qed.

(** C8: the records [search_books] finds are exactly those of the catalog
    for which the lowercased query occurs in the lowercased title, or in
    the lowercased author, or equals the decimal text of the year.  They
    come in catalog order, ascending by id when the catalog is; the
    library is unchanged, and finding nothing is reported as a plain
    message. *)
Theorem search_books_finds (lower : str → str) self in_query :
  let query := lower (strip in_query) in
  let wanted book :=
    substring query (lower (title book))
    ∨ substring query (lower (author book))
    ∨ query = py_str (year book) in
  let results := search_results lower self in_query in
  (∀ book, matches lower query book = true ↔ wanted book)
  ∧ results = List.filter (matches lower query) (books self)
  ∧ (∀ book, book ∈ results ↔ book ∈ books self ∧ wanted book)
  ∧ results `sublist_of` books self
  ∧ (ascending (books self) → ascending results)
  ∧ fst (search_books lower self in_query) = self
  ∧ snd (search_books lower self in_query)
    = match results with
      | [] => [NOTHING_FOUND]
      | _ => BOOKS_FOUND :: listing results
      end.
Proof.
  intros query wanted results.
  assert (Hm : ∀ book, matches lower query book = true ↔ wanted book).
  { intros book. unfold matches, wanted.
    rewrite !orb_true_iff, !contains_spec, bool_decide_eq_true. tauto. }
  split; [done|]. split; [done|]. split; [|split; [|split; [|split]]].
  - intros book. unfold results, search_results. fold query.
    rewrite list_elem_of_In, filter_In, <- list_elem_of_In, Hm. done.
  - apply filter_sublist.
  - apply StronglySorted_sublist, filter_sublist.
  - unfold search_books. fold results. by destruct results.
  - unfold search_books. fold results. by destruct results.
Qed.

Lemma search_books_finds_witness :
  ascending (search_results lower_basic (mkLibrary [dune; solaris] None) (lit " E ")).
Proof.
  apply (search_books_finds lower_basic (mkLibrary [dune; solaris] None) (lit " E ")).
  repeat constructor; unfold id_le; vm_compute; discriminate.
Defined.

(** ** update_status *)

Lemma next_with_id_Some id l k book :
  next_with_id id l = Some (k, book) → l !! k = Some book ∧ book_id book = id.
Proof.
  revert k. induction l as [|x l IH]; intros k; simpl; [done|].
  destruct (Z.eqb_spec (book_id x) id) as [Hx|Hx].
  - intros [= <- <-]. done.
  - destruct (next_with_id id l) as [[k' b']|]; simpl; [|done].
    intros [= <- <-]. by apply IH.
Qed.

Lemma next_with_id_None id l : next_with_id id l = None ↔ id ∉ map book_id l.
Proof.
  induction l as [|x l IH]; simpl.
  - split; [intros _; apply not_elem_of_nil | done].
  - rewrite not_elem_of_cons. destruct (Z.eqb_spec (book_id x) id) as [Hx|Hx].
    + split; [done | by intros [? _]].
    + destruct (next_with_id id l) as [[k b]|]; simpl.
      * split; [done|]. intros [_ H]. by apply IH in H.
      * split; [|done]. intros _. split; [done | by apply IH].
Qed.

Lemma next_with_id_unique id l book :
  NoDup (map book_id l) → book ∈ l → book_id book = id →
  ∃ k, next_with_id id l = Some (k, book).
Proof.
  induction l as [|x l IH]; simpl; intros Hnd Hin Hid; [by apply elem_of_nil in Hin|].
  apply NoDup_cons in Hnd as [Hx Hnd].
  destruct (Z.eqb_spec (book_id x) id) as [Hxid|Hxid].
  - apply elem_of_cons in Hin as [->|Hin]; [by exists O|].
    exfalso. apply Hx. rewrite Hxid, <- Hid. by apply list_elem_of_fmap_2.
  - apply elem_of_cons in Hin as [->|Hin]; [done|].
    destruct (IH Hnd Hin Hid) as [k ->]. by exists (S k).
Qed.

Lemma update_status_found_same self in_id in_choice id k book :
  py_int (strip in_id) = Some id →
  next_with_id id (books self) = Some (k, book) →
  asks_for (strip in_choice) (status book) →
  update_status self in_id in_choice
  = (self, [MENU_AVAILABLE; MENU_CHECKED_OUT; SAME_STATUS]).
Proof.
  intros Hid Hfind Hask. unfold update_status. rewrite Hid, Hfind.
  destruct Hask as [[-> ->] | [-> ->]]; reflexivity.
Qed.

(** C7: when the status asked for is the one the record with that id
    already has, [update_status] reports so and returns the library as it
    was: the records and the backing file are untouched.  The same holds
    for the library when the answer to the status menu is neither "1" nor
    "2". *)
Theorem update_status_no_change self in_id in_choice id :
  py_int (strip in_id) = Some id →
  (∀ k book,
     next_with_id id (books self) = Some (k, book) →
     asks_for (strip in_choice) (status book) →
     update_status self in_id in_choice
     = (self, [MENU_AVAILABLE; MENU_CHECKED_OUT; SAME_STATUS]))
  ∧ (∀ book,
       NoDup (ids self) → book ∈ books self → book_id book = id →
       asks_for (strip in_choice) (status book) →
       update_status self in_id in_choice
       = (self, [MENU_AVAILABLE; MENU_CHECKED_OUT; SAME_STATUS]))
  ∧ (strip in_choice ∉ [ONE; TWO] →
       fst (update_status self in_id in_choice) = self
       ∧ (id ∈ ids self →
          snd (update_status self in_id in_choice)
          = [MENU_AVAILABLE; MENU_CHECKED_OUT; BAD_CHOICE])).
Proof.
  intros Hid. split; [|split].
  - intros k book. by apply update_status_found_same.
  - intros book Hnd Hin Hbook Hask.
    destruct (next_with_id_unique id (books self) book Hnd Hin Hbook) as [k Hk].
    by eapply update_status_found_same.
  - intros Hchoice. unfold update_status. rewrite Hid.
    rewrite (bool_decide_eq_false_2 _ Hchoice).
    destruct (next_with_id id (books self)) as [[k book]|] eqn:Hfind.
    + done.
    + split; [done|]. intros Hin. by apply next_with_id_None in Hfind.
Qed.

Lemma update_status_no_change_witness :
  let self := mkLibrary [dune; solaris] (Some (written [dune; solaris])) in
  update_status self (lit "2") (lit " 1 ")
  = (self, [MENU_AVAILABLE; MENU_CHECKED_OUT; SAME_STATUS])
  ∧ fst (update_status self (lit "2") (lit "3")) = self.
Proof.
  intros self. split.
  - apply (proj1 (proj2 (update_status_no_change self (lit "2") (lit " 1 ") 2
                           eq_refl)) solaris).
    + by_evaluation.
    + by_evaluation.
    + reflexivity.
    + by left.
  - apply (proj2 (proj2 (update_status_no_change self (lit "2") (lit "3") 2
                           eq_refl))).
    by_evaluation.
Defined.

(** ** Sequences of operations *)

Lemma ascending_ids l : ascending l ↔ StronglySorted Z.le (map book_id l).
Proof.
  unfold ascending. induction l as [|x l IH]; simpl.
  - split; constructor.
  - split; intros H; apply StronglySorted_inv in H as [Hl Hx];
      (constructor; [by apply IH|]).
    + apply Forall_forall. intros y Hy.
      apply list_elem_of_fmap in Hy as (b & -> & Hb).
      by eapply Forall_forall in Hx.
    + apply Forall_forall. intros b Hb.
      eapply Forall_forall in Hx; [exact Hx|]. by apply list_elem_of_fmap_2.
Qed.

Lemma StronglySorted_le_lt (l : list Z) :
  NoDup l → StronglySorted Z.le l → StronglySorted Z.lt l.
Proof.
  induction l as [|x l IH]; intros Hnd Hs; [constructor|].
  apply NoDup_cons in Hnd as [Hx Hnd].
  apply StronglySorted_inv in Hs as [Hs Hle].
  constructor; [by apply IH|].
  apply Forall_forall. intros y Hy.
  eapply Forall_forall in Hle; [|exact Hy].
  assert (x ≠ y) by (by intros ->). lia.
Qed.

Lemma elem_of_lstrip x s : x ∈ lstrip s → x ∈ s.
Proof.
  induction s as [|c s IH]; simpl; [done|].
  destruct (isspace c); [|done]. intros H. right. by apply IH.
Qed.

Lemma elem_of_strip x s : x ∈ strip s → x ∈ s.
Proof. intros H. by apply elem_of_lstrip, elem_of_rstrip. Qed.

Lemma line_id_to_string b : line_id (to_string b ++ [LF]) = Some (book_id b).
Proof.
  unfold line_id. rewrite strip_to_string by by repeat constructor.
  rewrite split_app_sep by apply py_str_no_semi. simpl.
  apply py_int_py_str.
Qed.

Lemma file_ids_written bs :
  Forall (fun b => one_line (to_string b)) bs →
  file_ids (Some (written bs)) = Some <$> map book_id bs.
Proof.
  intros Hbs. unfold file_ids. rewrite file_lines_written by done.
  clear Hbs. induction bs as [|b bs IH]; [done|].
  cbn [map fmap list_fmap]. f_equal; [apply line_id_to_string | exact IH].
Qed.

Lemma comprehension_length {A B} (f : A → result B) xs ys :
  comprehension f xs = Ok ys → length ys = length xs.
Proof.
  intros H. apply comprehension_ok_inv in H. symmetry. by eapply Forall2_length.
Qed.

Lemma Library_init_empty f0 self0 :
  Library_init f0 = Ok self0 → books self0 = [] →
  self0 = mkLibrary [] f0 ∧ file_ids f0 = [].
Proof.
  unfold Library_init, load_data. destruct f0 as [text|]; simpl.
  - destruct (comprehension from_string (file_lines text)) as [bs|e] eqn:Hc;
      simpl; [|done].
    intros [= <-]. simpl. intros Hnil.
    assert (bs = []) as ->.
    { apply Permutation_nil_r. rewrite <- Hnil. symmetry. apply sorted_perm. }
    apply comprehension_length in Hc.
    destruct (file_lines text); [done | discriminate Hc].
  - by intros [= <-].
Qed.

Lemma save_data_ascending bs f :
  ascending bs → save_data (mkLibrary bs f) = mkLibrary bs (Some (written bs)).
Proof. intros H. unfold save_data. simpl. by rewrite sorted_id. Qed.

Lemma add_book_step self in_title in_author in_year :
  consistent self →
  let self' := fst (add_book self in_title in_author in_year) in
  self' = self ∨ (consistent self' ∧ saved self').
Proof.
  intros [Hnd Hasc]. unfold add_book.
  destruct (py_int (strip in_year)) as [year|]; [|by left]. right.
  cbn [fst]. rewrite save_data_ascending by apply sorted_ascending.
  split; [|done]. split; [|apply sorted_ascending].
  unfold ids. cbn [books].
  rewrite (Permutation_map book_id (sorted_perm _)), map_app. simpl.
  apply NoDup_app. split; [done|]. split; [|apply NoDup_singleton].
  intros x Hx Hnew. apply list_elem_of_singleton in Hnew as ->.
  by apply (proj1 (proj2 (generate_id_spec self))).
Qed.

Lemma delete_book_step self in_id :
  consistent self →
  let self' := fst (delete_book self in_id) in
  self' = self ∨ (consistent self' ∧ saved self').
Proof.
  intros [Hnd Hasc]. unfold delete_book.
  destruct (py_int (strip in_id)) as [id|]; [|by left].
  destruct (next_with_id id (books self)) as [[k book]|]; [|by left]. right.
  assert (ascending (delete k (books self))) as Hasc'.
  { eapply StronglySorted_sublist; [apply sublist_delete | exact Hasc]. }
  cbn [fst]. rewrite save_data_ascending by done.
  split; [|done]. split; [|done].
  unfold ids. cbn [books].
  change (map book_id (delete k (books self)))
    with (book_id <$> delete k (books self)).
  rewrite list_fmap_delete. eapply sublist_NoDup; [exact Hnd | apply sublist_delete].
Qed.

Lemma ids_set_status l k book new_status :
  l !! k = Some book →
  map book_id (<[k := set_status book new_status]> l) = map book_id l.
Proof.
  intros Hk.
  change (book_id <$> <[k := set_status book new_status]> l = book_id <$> l).
  rewrite list_fmap_insert. apply list_insert_id.
  rewrite list_lookup_fmap, Hk. done.
Qed.

Lemma update_status_step self in_id in_choice :
  consistent self →
  let self' := fst (update_status self in_id in_choice) in
  self' = self ∨ (consistent self' ∧ saved self').
Proof.
  intros [Hnd Hasc]. unfold update_status.
  destruct (py_int (strip in_id)) as [id|]; [|by left].
  destruct (next_with_id id (books self)) as [[k book]|] eqn:Hfind; [|by left].
  apply next_with_id_Some in Hfind as [Hk _].
  destruct (bool_decide (strip in_choice ∈ [ONE; TWO])); [|by left].
  set (new_status := if bool_decide (strip in_choice = ONE)
                     then AVAILABLE else CHECKED_OUT).
  destruct (bool_decide (status book = new_status)); [by left|]. right.
  assert (ascending (<[k := set_status book new_status]> (books self))) as Hasc'.
  { apply ascending_ids. rewrite ids_set_status by done. by apply ascending_ids. }
  cbn [fst]. rewrite save_data_ascending by done.
  split; [|done]. split; [|done].
  unfold ids. cbn [books]. by rewrite ids_set_status.
Qed.

Lemma exec_step self o :
  consistent self →
  exec self o = self ∨ (consistent (exec self o) ∧ saved (exec self o)).
Proof.
  destruct o; simpl.
  - apply add_book_step.
  - apply delete_book_step.
  - apply update_status_step.
Qed.

Lemma one_line_strip s : one_line s → one_line (strip s).
Proof. intros [Hl Hc]. split; intros Hin; by apply elem_of_strip in Hin. Qed.

Lemma labels_one_line : one_line AVAILABLE ∧ one_line CHECKED_OUT.
Proof. repeat split; by_evaluation. Qed.

Lemma exec_newline_free self o :
  typed o → no_carriage_return o → newline_free self →
  newline_free (exec self o).
Proof.
  unfold newline_free. intros Ho Hcr Hfree. destruct o; simpl.
  - destruct Ho as [Ht Ha], Hcr as [Ht' Ha']. unfold add_book.
    destruct (py_int (strip in_year)) as [year|]; [|done].
    cbn [fst save_data books]. rewrite (sorted_perm _).
    apply Forall_app. split; [done|]. constructor; [|constructor].
    simpl. split; [|split].
    + by apply one_line_strip.
    + by apply one_line_strip.
    + apply labels_one_line.
  - unfold delete_book.
    destruct (py_int (strip in_id)) as [id|]; [|done].
    destruct (next_with_id id (books self)) as [[k book]|]; [|done].
    cbn [fst save_data books].
    apply Forall_forall. intros b Hb.
    eapply Forall_forall in Hfree; [exact Hfree|].
    eapply elem_of_sublist; [exact Hb | apply sublist_delete].
  - unfold update_status.
    destruct (py_int (strip in_id)) as [id|]; [|done].
    destruct (next_with_id id (books self)) as [[k book]|] eqn:Hfind; [|done].
    apply next_with_id_Some in Hfind as [Hk _].
    destruct (bool_decide (strip in_choice ∈ [ONE; TWO])); [|done].
    set (new_status := if bool_decide (strip in_choice = ONE)
                       then AVAILABLE else CHECKED_OUT).
    destruct (bool_decide (status book = new_status)); [done|].
    cbn [fst save_data books].
    apply Forall_insert; [done|].
    eapply Forall_lookup_1 in Hfree as (Ht & Ha & _); [|exact Hk].
    simpl. split; [done|]. split; [done|].
    unfold new_status. destruct (bool_decide (strip in_choice = ONE));
      apply labels_one_line.
Qed.

Lemma run_snoc self ops o : run self (ops ++ [o]) = exec (run self ops) o.
Proof. unfold run. by rewrite foldl_app. Qed.

Lemma run_consistent f0 ops :
  let self := run (mkLibrary [] f0) ops in
  consistent self ∧ ((books self = [] ∧ backing self = f0) ∨ saved self).
Proof.
  induction ops as [|o ops IH] using rev_ind.
  - simpl. split; [split; constructor | by left].
  - rewrite run_snoc. destruct IH as [Hc Hfile].
    destruct (exec_step _ o Hc) as [-> | [Hc' Hs]]; [done|].
    split; [done | by right].
Qed.

Lemma run_newline_free f0 ops :
  Forall typed ops → Forall no_carriage_return ops →
  newline_free (run (mkLibrary [] f0) ops).
Proof.
  induction ops as [|o ops IH] using rev_ind; intros Hops Hcr.
  - constructor.
  - apply Forall_app in Hops as [Hops Ho]. apply Forall_app in Hcr as [Hcr Ho'].
    rewrite run_snoc.
    apply exec_newline_free; [by inversion Ho | by inversion Ho' | by apply IH].
Qed.

(** C1, as stated, fails for the lines of the backing file.  [input()]
    can return a title with a carriage return inside; it is written as it
    is, and reading takes it for the end of a line.  After this one
    [add_book] the catalog holds the single id 1, while the file has two
    lines, which start with 1 and 0, and no longer loads. *)
Lemma catalog_file_carriage_return :
  let self := run (mkLibrary [] None) [two_line_title] in
  typed two_line_title
  ∧ ids self = [1%Z]
  ∧ backing self
    = Some ([49; SEMI; 97; CR; 48; SEMI; 120; SEMI; 49; SEMI] ++ AVAILABLE ++ [LF])
  ∧ file_lines ([49; SEMI; 97; CR; 48; SEMI; 120; SEMI; 49; SEMI] ++ AVAILABLE ++ [LF])
    = [[49; SEMI; 97; LF]; [48; SEMI; 120; SEMI; 49; SEMI] ++ AVAILABLE ++ [LF]]
  ∧ file_ids (backing self) = [Some 1%Z; Some 0%Z]
  ∧ Library_init (backing self) = Raise IndexError.
Proof.
  split; [split; by_evaluation|]. repeat split; by vm_compute.
Qed.

(** C1 (amended): after any sequence of [add_book], [delete_book] and
    [update_status] calls on a library that starts empty, the ids of the
    records are pairwise distinct and in strictly ascending order; an
    operation that changes the records rewrites the backing file from
    them; and, when no title or author typed holds a carriage return, the
    ids read off the lines of the backing file are the ids of the records,
    in the same ascending order. *)
Theorem catalog_ids_distinct_sorted f0 self0 ops :
  Library_init f0 = Ok self0 → books self0 = [] →
  let self := run self0 ops in
  NoDup (ids self)
  ∧ StronglySorted Z.lt (ids self)
  ∧ (∀ o, books (exec self o) ≠ books self → saved (exec self o))
  ∧ (Forall typed ops → Forall no_carriage_return ops →
     file_ids (backing self) = Some <$> ids self).
Proof.
  intros Hinit Hnil.
  destruct (Library_init_empty f0 self0 Hinit Hnil) as [-> Hf0]. intros self.
  destruct (run_consistent f0 ops) as [[Hnd Hasc] Hfile]. fold self in Hnd, Hasc, Hfile.
  split; [done|]. split; [|split].
  - apply StronglySorted_le_lt; [done|]. by apply ascending_ids.
  - intros o Hchange.
    destruct (exec_step self o (conj Hnd Hasc)) as [Heq | [_ Hs]]; [|done].
    by rewrite Heq in Hchange.
  - intros Hops Hcr. destruct Hfile as [[Hb Hf] | Hs].
    + rewrite Hf, Hf0. unfold ids. by rewrite Hb.
    + rewrite Hs. apply file_ids_written.
      pose proof (run_newline_free f0 ops Hops Hcr) as Hfree. fold self in Hfree.
      eapply Forall_impl; [exact Hfree|].
      intros b (? & ? & ?). by apply to_string_one_line.
Qed.

Lemma catalog_ids_distinct_sorted_witness :
  ids (run (mkLibrary [] None) session) = [1; 2; 3]%Z
  ∧ file_ids (backing (run (mkLibrary [] None) session))
    = [Some 1; Some 2; Some 3]%Z
  ∧ NoDup (ids (run (mkLibrary [] None) session)).
Proof.
  pose proof (catalog_ids_distinct_sorted None (mkLibrary [] None) session
                eq_refl eq_refl) as (Hnd & _ & _ & Hfile).
  split; [by vm_compute|]. split; [|exact Hnd].
  rewrite Hfile; [by vm_compute| |].
  - repeat (constructor; [first [exact I | split; by_evaluation]|]).
    constructor.
  - repeat (constructor; [first [exact I | split; by_evaluation]|]).
    constructor.
Defined.

(** * Further properties of the program *)

(** ** Book *)

Lemma split_parts_no_sep sep s : Forall (fun p => sep ∉ p) (split sep s).
Proof.
  induction s as [|c s IH]; simpl.
  - constructor; [apply not_elem_of_nil | constructor].
  - destruct (N.eqb_spec c sep) as [->|Hne].
    + constructor; [apply not_elem_of_nil | exact IH].
    + destruct (split sep s) as [|p ps].
      { constructor; [|constructor]. apply not_elem_of_cons.
        split; [congruence | apply not_elem_of_nil]. }
      apply Forall_cons in IH as [Hp Hps].
      constructor; [|exact Hps]. by apply not_elem_of_cons.
Qed.

Lemma from_parts_Ok parts b :
  from_parts parts = Ok b →
  parts !! 1%nat = Some (title b) ∧ parts !! 2%nat = Some (author b)
  ∧ parts !! 4%nat = Some (status b).
Proof.
  unfold from_parts, index, int.
  destruct parts as [|p0 [|p1 [|p2 [|p3 [|p4 rest]]]]]; simpl;
    try destruct (py_int p0); simpl; try destruct (py_int p3); simpl;
    try discriminate.
  by intros [= <-].
Qed.

(** X1: a record that [from_string] returns has no semicolon in its title,
    author or status, whatever the line was; so no line decodes to a
    record that has one. *)
Theorem from_string_no_semicolon line b :
  from_string line = Ok b →
  (SEMI ∉ title b) ∧ (SEMI ∉ author b) ∧ (SEMI ∉ status b).
Proof.
  unfold from_string. intros H.
  apply from_parts_Ok in H as (Ht & Ha & Hs).
  pose proof (split_parts_no_sep SEMI (strip line)) as Hall.
  repeat split; eapply (Forall_lookup_1 _ _ _ _ Hall); eassumption.
Qed.

Lemma from_string_no_semicolon_witness :
  SEMI ∉ title (mkBook 1 (lit "Dune") (lit "Herbert") 1965 (lit "lost")).
Proof.
  apply (from_string_no_semicolon (lit "1;Dune;Herbert;1965;lost;found
")).
  by vm_compute.
Defined.

(** X2: decoding the encoded record gives the record back exactly when its
    title, author and status hold no semicolon and its status does not end
    in whitespace. *)
Theorem from_string_to_string_iff b :
  from_string (to_string b) = Ok b ↔
  (SEMI ∉ title b) ∧ (SEMI ∉ author b) ∧ (SEMI ∉ status b)
  ∧ no_trailing_space (status b).
Proof.
  split.
  - intros H.
    assert ((SEMI ∉ title b) ∧ (SEMI ∉ author b) ∧ (SEMI ∉ status b))
      as (Ht & Ha & Hs).
    { pose proof H as H'. unfold from_string in H'.
      apply from_parts_Ok in H' as (Ht & Ha & Hs).
      pose proof (split_parts_no_sep SEMI (strip (to_string b))) as Hall.
      repeat split; eapply (Forall_lookup_1 _ _ _ _ Hall); eassumption. }
    repeat split; try done.
    rewrite <- (app_nil_r (to_string b)) in H.
    rewrite from_string_to_string_blank in H by (done || constructor).
    injection H as H. apply (f_equal status) in H. simpl in H.
    rewrite <- H. apply rstrip_no_trailing_space.
  - intros (Ht & Ha & Hs & Hsp).
    rewrite <- (app_nil_r (to_string b)).
    rewrite from_string_to_string_blank by (done || constructor).
    rewrite rstrip_id by done. by destruct b.
Qed.

(** X3: which exception [from_string] raises, in terms of the parts of
    the line stripped at both ends.  It is [ValueError] when part 0 is not
    an integer, or there are at least 4 parts and part 3 is not an
    integer; it is [IndexError] when part 0 is an integer and there are
    fewer than 4 parts, or exactly 4 with an integer part 3. *)
Theorem from_string_exception line :
  let parts := split SEMI (strip line) in
  (from_string line = Raise ValueError ↔
     (∃ p, parts !! 0%nat = Some p ∧ py_int p = None)
     ∨ (∃ p, parts !! 3%nat = Some p ∧ py_int p = None))
  ∧ (from_string line = Raise IndexError ↔
       (∃ p i, parts !! 0%nat = Some p ∧ py_int p = Some i)
       ∧ ((length parts < 4)%nat
          ∨ (length parts = 4%nat
             ∧ ∃ p y, parts !! 3%nat = Some p ∧ py_int p = Some y))).
Proof.
  intros parts. unfold from_string. fold parts.
  pose proof (split_length SEMI (strip line)) as Hlen. fold parts in Hlen.
  clearbody parts. unfold from_parts, index, int.
  destruct parts as [|p0 [|p1 [|p2 [|p3 [|p4 rest]]]]]; simpl in *;
    [lia|..];
    destruct (py_int p0) as [i|] eqn:H0; simpl;
    try (destruct (py_int p3) as [y|] eqn:H3; simpl).
  all: split; (split;
    [ intros H;
      first [ discriminate H
            | left; by eexists
            | right; by eexists
            | split; [by eexists _, _|]; first [ left; lia | right; split; [done|]; by eexists _, _ ] ]
    | intros Hcase; first [ reflexivity | exfalso ];
      repeat match goal with
             | H : _ ∨ _ |- _ => destruct H
             | H : _ ∧ _ |- _ => destruct H
             | H : ∃ _, _ |- _ => destruct H
             end; simpl in *; first [ lia | congruence ] ]).
Qed.

(** ** save_data and load_data *)

Lemma sorted_idemp l : sorted (sorted l) = sorted l.
Proof. apply sorted_id, sorted_ascending. Qed.

Lemma Forall_sorted (P : Book → Prop) l : Forall P l → Forall P (sorted l).
Proof. intros H. by rewrite (sorted_perm l). Qed.

(** X4: what [save_data] writes, [load_data] reads back: for records that
    the file format can hold (no semicolon, U+000A or U+000D in title,
    author or status, no whitespace at the end of the status), loading the
    saved file returns the records sorted by id (equal ids in their order
    in memory), and saving leaves the records in memory as they were. *)
Theorem load_data_save_data self :
  Forall storable (books self) →
  load_data (backing (save_data self)) = Ok (sorted (books self))
  ∧ books (save_data self) = books self.
Proof.
  intros Hall. split; [|done]. unfold save_data. cbn [backing].
  rewrite load_data_written by by apply Forall_sorted.
  by rewrite sorted_idemp.
Qed.

Lemma load_data_save_data_witness :
  load_data (backing (save_data (mkLibrary [solaris; dune] None)))
  = Ok (sorted [solaris; dune]).
Proof.
  apply load_data_save_data.
  repeat (constructor; [repeat split; try by_evaluation;
                        intros c Hc; vm_compute in Hc; injection Hc as <-;
                        reflexivity|]).
  constructor.
Defined.

(** X5: whatever the order of the records in memory, the file that
    [save_data] writes lists them by ascending id: when no record holds a
    line ending (U+000A or U+000D) in its title, author or status, the ids
    at the start of the lines read from it are the ids of the records,
    sorted.  Saving twice is saving once. *)
Theorem save_data_file_ascending self :
  newline_free self →
  (∃ l, file_ids (backing (save_data self)) = Some <$> l
        ∧ l ≡ₚ ids self ∧ StronglySorted Z.le l)
  ∧ save_data (save_data self) = save_data self.
Proof.
  intros Hfree. split.
  - exists (map book_id (sorted (books self))). split; [|split].
    + unfold save_data. cbn [backing]. apply file_ids_written.
      apply Forall_sorted. eapply Forall_impl; [exact Hfree|].
      intros b (? & ? & ?). by apply to_string_one_line.
    + unfold ids. apply Permutation_map, sorted_perm.
    + apply ascending_ids, sorted_ascending.
  - unfold save_data. by cbn [books backing].
Qed.

Lemma save_data_file_ascending_witness :
  file_ids (backing (save_data (mkLibrary [solaris; dune] None)))
  = [Some 1; Some 2]%Z.
Proof.
  destruct (save_data_file_ascending (mkLibrary [solaris; dune] None))
    as [(l & Hl & _ & _) _].
  - repeat (constructor; [repeat split; by_evaluation|]). constructor.
  - by vm_compute.
Defined.

(** ** generate_id *)

Lemma generate_id_unique self g :
  (1 ≤ g)%Z → g ∉ ids self → (∀ k, (1 ≤ k < g)%Z → k ∈ ids self) →
  generate_id self = g.
Proof.
  intros Hg Hfree Hbelow.
  destruct (generate_id_spec self) as (Hle & Hnot & Hall).
  destruct (Z.lt_trichotomy (generate_id self) g) as [Hlt | [Heq | Hgt]]; [|done|].
  - exfalso. apply Hnot, Hbelow. lia.
  - exfalso. apply Hfree, Hall. lia.
Qed.

(** X6: the id that [generate_id] returns is at most the number of records
    plus one. *)
Theorem generate_id_bound self :
  (1 ≤ generate_id self ≤ Z.of_nat (length (books self)) + 1)%Z.
Proof.
  destruct (generate_id_spec self) as (Hle & _ & Hall). split; [done|].
  assert (seqZ 1 (generate_id self - 1) ⊆+ ids self) as Hsub.
  { apply NoDup_submseteq; [apply NoDup_seqZ|].
    intros k Hk. apply elem_of_seqZ in Hk. apply Hall. lia. }
  apply submseteq_length in Hsub.
  rewrite length_seqZ in Hsub. unfold ids in Hsub. rewrite length_map in Hsub.
  lia.
Qed.

(** ** add_book *)

(** X7: with an integer year, [add_book] adds exactly one record: the id
    is the one [generate_id] gives, which no record had; title and author
    are the answers stripped, unchecked; the status is "в наличии".  The
    old records are all kept, the list is in ascending order of id and the
    file is written from it.  With any other year answer nothing changes. *)
Theorem add_book_adds self in_title in_author in_year :
  (∀ year, py_int (strip in_year) = Some year →
     let new := mkBook (generate_id self) (strip in_title) (strip in_author)
                       year AVAILABLE in
     let self' := fst (add_book self in_title in_author in_year) in
     books self' ≡ₚ new :: books self
     ∧ (book_id new ∉ ids self)
     ∧ ascending (books self')
     ∧ saved self'
     ∧ snd (add_book self in_title in_author in_year) = [BOOK_ADDED])
  ∧ (py_int (strip in_year) = None →
     add_book self in_title in_author in_year = (self, [YEAR_NOT_A_NUMBER])).
Proof.
  split.
  - intros year Hyear new self'. subst self'. unfold add_book. rewrite Hyear.
    fold new. cbn [fst snd].
    rewrite save_data_ascending by apply sorted_ascending. cbn [books].
    split; [|split; [|split; [|split]]]; try done.
    + rewrite sorted_perm. by rewrite Permutation_app_comm.
    + apply (proj1 (proj2 (generate_id_spec self))).
    + apply sorted_ascending.
  - intros Hyear. unfold add_book. by rewrite Hyear.
Qed.

Lemma add_book_adds_witness :
  books (fst (add_book (mkLibrary [solaris] None) (lit " Dune") (lit "Herbert ")
                       (lit "1965")))
  ≡ₚ dune :: [solaris]
  ∧ add_book (mkLibrary [solaris] None) (lit "Dune") (lit "Herbert") (lit "MCMLXV")
    = (mkLibrary [solaris] None, [YEAR_NOT_A_NUMBER]).
Proof.
  split.
  - apply (proj1 (add_book_adds (mkLibrary [solaris] None) (lit " Dune")
                    (lit "Herbert ") (lit "1965")) 1965%Z).
    by vm_compute.
  - apply (proj2 (add_book_adds (mkLibrary [solaris] None) (lit "Dune")
                    (lit "Herbert") (lit "MCMLXV"))).
    by vm_compute.
Defined.

Lemma seqZ_sorted m (n : nat) : StronglySorted Z.le (seqZ m (Z.of_nat n)).
Proof.
  revert m. induction n as [|n IH]; intros m.
  - rewrite seqZ_nil by lia. constructor.
  - rewrite seqZ_cons by lia.
    replace (Z.pred (Z.of_nat (S n))) with (Z.of_nat n) by lia.
    constructor; [apply IH|].
    apply Forall_forall. intros k Hk. apply elem_of_seqZ in Hk. lia.
Qed.

(** X8: on a library that starts empty, n accepted [add_book] calls in a
    row give the records the ids 1, 2, ..., n, in that order. *)
Theorem add_book_numbers_from_one f0 ops :
  Forall accepted_add ops →
  ids (run (mkLibrary [] f0) ops) = seqZ 1 (Z.of_nat (length ops)).
Proof.
  induction ops as [|o ops IH] using rev_ind; intros Hops; [done|].
  apply Forall_app in Hops as [Hops Ho]. apply Forall_cons in Ho as [Ho _].
  specialize (IH Hops). rewrite run_snoc, length_app. simpl length.
  replace (length ops + 1)%nat with (S (length ops)) by lia.
  set (self := run (mkLibrary [] f0) ops) in *.
  destruct o as [t a y|i|i c]; simpl in Ho; try done. destruct Ho as [year Hyear].
  assert (generate_id self = 1 + Z.of_nat (length ops))%Z as Hg.
  { apply generate_id_unique; [lia| |]; rewrite IH.
    - intros H. apply elem_of_seqZ in H. lia.
    - intros k Hk. apply elem_of_seqZ. lia. }
  simpl exec. unfold add_book. rewrite Hyear. cbn [fst].
  unfold ids, save_data. cbn [books]. rewrite Hg.
  assert (map book_id (books self ++ [mkBook (1 + Z.of_nat (length ops))
            (strip t) (strip a) year AVAILABLE])
          = seqZ 1 (Z.of_nat (S (length ops)))) as Hids.
  { rewrite map_app, seqZ_S. simpl. f_equal. exact IH. }
  rewrite sorted_id; [exact Hids|].
  apply ascending_ids. rewrite Hids. apply seqZ_sorted.
Qed.

Lemma add_book_numbers_from_one_witness :
  ids (run (mkLibrary [] None)
           [AddBook (lit "Dune") (lit "Herbert") (lit "1965");
            AddBook (lit "Solaris") (lit "Lem") (lit "1961");
            AddBook (lit "Emma") (lit "Austen") (lit "1815")])
  = [1; 2; 3]%Z.
Proof.
  rewrite add_book_numbers_from_one; [reflexivity|].
  repeat (constructor; [by eexists; vm_compute|]). constructor.
Defined.

(** ** delete_book *)

Lemma filter_other_ids id l :
  id ∉ map book_id l →
  List.filter (fun x => negb (book_id x =? id)%Z) l = l.
Proof.
  induction l as [|x l IH]; simpl; [done|]. intros H.
  apply not_elem_of_cons in H as [Hx Hl].
  rewrite (proj2 (Z.eqb_neq (book_id x) id)) by done. simpl. by rewrite IH.
Qed.

Lemma delete_first_filter id l k book :
  NoDup (map book_id l) → next_with_id id l = Some (k, book) →
  delete k l = List.filter (fun x => negb (book_id x =? id)%Z) l.
Proof.
  revert k. induction l as [|x l IH]; intros k Hnd; simpl; [done|].
  apply NoDup_cons in Hnd as [Hx Hnd].
  destruct (Z.eqb_spec (book_id x) id) as [Hid|Hid].
  - intros [= <- <-]. simpl. rewrite filter_other_ids; [done|]. by rewrite <- Hid.
  - destruct (next_with_id id l) as [[k' b']|] eqn:Hfind; simpl; [|done].
    intros [= <- <-]. simpl. f_equal. by eapply IH.
Qed.

Lemma delete_book_found self in_id id :
  py_int (strip in_id) = Some id → id ∈ ids self →
  ∃ k book,
    next_with_id id (books self) = Some (k, book)
    ∧ delete_book self in_id
      = (save_data (mkLibrary (delete k (books self)) (backing self)),
         [BOOK_DELETED]).
Proof.
  intros Hid Hin. unfold delete_book. rewrite Hid.
  destruct (next_with_id id (books self)) as [[k book]|] eqn:Hfind.
  - by exists k, book.
  - by apply next_with_id_None in Hfind.
Qed.

Lemma delete_book_distinct self in_id id :
  py_int (strip in_id) = Some id → id ∈ ids self → NoDup (ids self) →
  books (fst (delete_book self in_id))
  = List.filter (fun x => negb (book_id x =? id)%Z) (books self).
Proof.
  intros Hid Hin Hnd.
  destruct (delete_book_found self in_id id Hid Hin) as (k & book & Hfind & ->).
  cbn [fst save_data books]. by eapply delete_first_filter.
Qed.

Lemma next_with_id_first id l k book :
  next_with_id id l = Some (k, book) →
  ∀ j b, (j < k)%nat → l !! j = Some b → book_id b ≠ id.
Proof.
  revert k. induction l as [|x l IH]; intros k; simpl; [done|].
  destruct (Z.eqb_spec (book_id x) id) as [Hx|Hx].
  - intros [= <- <-] j b Hj. lia.
  - destruct (next_with_id id l) as [[k' b']|] eqn:Hfind; simpl; [|done].
    intros [= <- <-] j b Hj Hb. destruct j as [|j]; simpl in Hb.
    + by injection Hb as <-.
    + eapply (IH k' eq_refl j); [lia | done].
Qed.

(** X9: [delete_book] with an integer id answer.  When no record has the
    id, nothing changes.  Otherwise the record removed is the first with
    that id: it stands at a position [k] before which no record has the
    id, and the records left are the list without position [k]; the file
    is rewritten from them, sorted.  When ids are distinct the records
    left are those with another id. *)
Theorem delete_book_removes self in_id id :
  py_int (strip in_id) = Some id →
  (id ∉ ids self → delete_book self in_id = (self, [ID_NOT_FOUND]))
  ∧ (id ∈ ids self →
     ∃ k book,
       books self !! k = Some book ∧ book_id book = id
       ∧ (∀ j b, (j < k)%nat → books self !! j = Some b → book_id b ≠ id)
       ∧ delete_book self in_id
         = (mkLibrary (delete k (books self))
                      (Some (written (sorted (delete k (books self))))),
            [BOOK_DELETED])
       ∧ (NoDup (ids self) →
          delete k (books self)
          = List.filter (fun x => negb (book_id x =? id)%Z) (books self)
          ∧ (id ∉ ids (fst (delete_book self in_id))))
       ∧ (ascending (books self) → saved (fst (delete_book self in_id)))).
Proof.
  intros Hid. split.
  - intros Hnot. unfold delete_book. rewrite Hid.
    by rewrite (proj2 (next_with_id_None id (books self)) Hnot).
  - intros Hin.
    destruct (delete_book_found self in_id id Hid Hin) as (k & book & Hfind & Hdel).
    pose proof (next_with_id_Some _ _ _ _ Hfind) as [Hk Hbook].
    exists k, book. rewrite Hdel. cbn [fst save_data books backing].
    split; [done|]. split; [done|].
    split; [by eapply next_with_id_first|]. split; [done|]. split.
    + intros Hnd.
      rewrite (delete_first_filter id (books self) k book Hnd Hfind).
      split; [done|]. unfold ids. cbn [books].
      intros H. apply list_elem_of_fmap in H as (x & Hx & Hmem).
      apply list_elem_of_In, filter_In in Hmem as [_ Hne].
      apply negb_true_iff, Z.eqb_neq in Hne. done.
    + intros Hasc.
      change (saved (save_data (mkLibrary (delete k (books self)) (backing self)))).
      rewrite save_data_ascending; [done|].
      eapply StronglySorted_sublist; [apply sublist_delete | exact Hasc].
Qed.

Lemma delete_book_removes_witness :
  (∃ k, delete_book (mkLibrary [dune; solaris; dune] None) (lit " 1 ")
        = (mkLibrary (delete k [dune; solaris; dune])
                     (Some (written (sorted (delete k [dune; solaris; dune])))),
           [BOOK_DELETED])
        ∧ ∀ j b, (j < k)%nat → [dune; solaris; dune] !! j = Some b →
                 book_id b ≠ 1%Z)
  ∧ delete_book (mkLibrary [dune; solaris] None) (lit "3")
    = (mkLibrary [dune; solaris] None, [ID_NOT_FOUND]).
Proof.
  split.
  - destruct (proj2 (delete_book_removes (mkLibrary [dune; solaris; dune] None)
                       (lit " 1 ") 1%Z eq_refl))
      as (k & book & _ & _ & Hfirst & Hdel & _); [by_evaluation|].
    exists k. split; [exact Hdel | exact Hfirst].
  - apply (proj1 (delete_book_removes (mkLibrary [dune; solaris] None)
                    (lit "3") 3%Z eq_refl)).
    by_evaluation.
Defined.

(** X10: deleting a record frees its id for the next [add_book]: with
    distinct ids, after the record with the positive id [id] is deleted,
    [generate_id] returns the smaller of [id] and what it returned
    before. *)
Theorem delete_book_frees_id self in_id id :
  py_int (strip in_id) = Some id → NoDup (ids self) → id ∈ ids self →
  (1 ≤ id)%Z →
  generate_id (fst (delete_book self in_id)) = Z.min id (generate_id self).
Proof.
  intros Hid Hnd Hin Hpos.
  pose proof (delete_book_distinct self in_id id Hid Hin Hnd) as Hbooks.
  destruct (generate_id_spec self) as (Hle & Hnot & Hall).
  assert (Hmem : ∀ k, k ∈ ids (fst (delete_book self in_id))
                      ↔ k ∈ ids self ∧ k ≠ id).
  { intros k. unfold ids. rewrite Hbooks. split.
    - intros H. apply list_elem_of_fmap in H as (x & -> & Hx).
      apply list_elem_of_In, filter_In in Hx as [Hx Hne].
      apply negb_true_iff, Z.eqb_neq in Hne.
      split; [|done]. apply list_elem_of_fmap_2. by apply list_elem_of_In.
    - intros [H Hne]. apply list_elem_of_fmap in H as (x & -> & Hx).
      apply list_elem_of_fmap_2. apply list_elem_of_In, filter_In.
      split; [by apply list_elem_of_In|]. by apply negb_true_iff, Z.eqb_neq. }
  assert (id ≠ generate_id self) by (by intros ->).
  apply generate_id_unique; [lia| |].
  - rewrite Hmem. intros [Hm Hne].
    destruct (Z.min_spec id (generate_id self)) as [[_ Hmin] | [_ Hmin]];
      rewrite Hmin in *; done.
  - intros k Hk. apply Hmem. split; [apply Hall|]; lia.
Qed.

Lemma delete_book_frees_id_witness :
  generate_id (fst (delete_book (mkLibrary [dune; solaris] None) (lit "1")))
  = Z.min 1 (generate_id (mkLibrary [dune; solaris] None)).
Proof.
  apply (delete_book_frees_id _ _ 1%Z); [reflexivity | by_evaluation.. | lia].
Defined.

(** ** update_status *)

Lemma next_with_id_insert id l k book new_status :
  next_with_id id l = Some (k, book) →
  next_with_id id (<[k := set_status book new_status]> l)
  = Some (k, set_status book new_status).
Proof.
  revert k. induction l as [|x l IH]; intros k; simpl; [done|].
  destruct (Z.eqb_spec (book_id x) id) as [Hid|Hid].
  - intros [= <- <-]. simpl. by rewrite (proj2 (Z.eqb_eq _ _) Hid).
  - destruct (next_with_id id l) as [[k' b']|] eqn:Hfind; simpl; [|done].
    intros [= <- <-]. simpl. rewrite (proj2 (Z.eqb_neq _ _) Hid).
    by rewrite (IH k' eq_refl).
Qed.

(** What [update_status] leaves alone in a record. *)
Lemma kept_set_status {A} (f : Book → A) l k book new_status :
  (∀ b s, f (set_status b s) = f b) → l !! k = Some book →
  map f (<[k := set_status book new_status]> l) = map f l.
Proof.
  intros Hf Hk.
  change (f <$> <[k := set_status book new_status]> l = f <$> l).
  rewrite list_fmap_insert, Hf. apply list_insert_id.
  by rewrite list_lookup_fmap, Hk.
Qed.

(** X11: whatever the answers, [update_status] changes nothing but
    statuses: the records keep their number, order, ids, titles, authors
    and years, and a status either stays or becomes one of the two labels. *)
Theorem update_status_frame self in_id in_choice :
  let self' := fst (update_status self in_id in_choice) in
  map (fun b => (book_id b, title b, author b, year b)) (books self')
  = map (fun b => (book_id b, title b, author b, year b)) (books self)
  ∧ Forall2 (fun b b' => status b' = status b
                          ∨ status b' = AVAILABLE ∨ status b' = CHECKED_OUT)
            (books self) (books self').
Proof.
  assert (Hrefl : ∀ l : list Book,
             Forall2 (fun b b' => status b' = status b
                                  ∨ status b' = AVAILABLE
                                  ∨ status b' = CHECKED_OUT) l l).
  { intros l. apply Forall2_same_length_lookup_2; [done|].
    intros i x y Hx Hy. left. congruence. }
  unfold update_status.
  destruct (py_int (strip in_id)) as [id|]; [|by split].
  destruct (next_with_id id (books self)) as [[k book]|] eqn:Hfind; [|by split].
  apply next_with_id_Some in Hfind as [Hk _].
  destruct (bool_decide (strip in_choice ∈ [ONE; TWO])); [|by split].
  set (new_status := if bool_decide (strip in_choice = ONE)
                     then AVAILABLE else CHECKED_OUT).
  destruct (bool_decide (status book = new_status)); [by split|].
  cbn [fst save_data books]. split; [by apply kept_set_status|].
  apply Forall2_same_length_lookup_2; [by rewrite length_insert|].
  intros i x y Hx Hy. destruct (decide (i = k)) as [->|Hne].
  - rewrite list_lookup_insert_eq in Hy by by eapply lookup_lt_Some.
    injection Hy as <-. right. simpl. unfold new_status.
    destruct (bool_decide (strip in_choice = ONE)); auto.
  - rewrite list_lookup_insert_ne in Hy by done. left. congruence.
Qed.

(** X12: asking twice for the same status change is asking once: the
    second [update_status] call with the same answers returns the library
    the first call left, records and file. *)
Theorem update_status_twice self in_id in_choice :
  let self' := fst (update_status self in_id in_choice) in
  fst (update_status self' in_id in_choice) = self'.
Proof.
  intros self'. subst self'. unfold update_status.
  destruct (py_int (strip in_id)) as [id|]; [|done].
  destruct (next_with_id id (books self)) as [[k book]|] eqn:Hfind;
    [|cbn [fst]; by rewrite Hfind].
  destruct (bool_decide (strip in_choice ∈ [ONE; TWO]));
    [|cbn [fst]; by rewrite Hfind].
  set (new_status := if bool_decide (strip in_choice = ONE)
                     then AVAILABLE else CHECKED_OUT).
  destruct (bool_decide (status book = new_status)) eqn:Hsame.
  - cbn [fst]. by rewrite Hfind, Hsame.
  - cbn [fst save_data books].
    rewrite (next_with_id_insert id _ k book new_status Hfind).
    cbn [status set_status]. by rewrite bool_decide_eq_true_2.
Qed.

(** X13: the two statuses can be switched back and forth: when the record
    found has the status that answer [c1] stands for, changing it with
    another answer [c2] and then back with [c1] gives the records as they
    were. *)
Theorem update_status_back_and_forth self in_id in1 in2 id k book s1 s2 :
  py_int (strip in_id) = Some id →
  next_with_id id (books self) = Some (k, book) →
  asks_for (strip in1) s1 → asks_for (strip in2) s2 → s1 ≠ s2 →
  status book = s1 →
  let there := fst (update_status self in_id in2) in
  books there = <[k := set_status book s2]> (books self)
  ∧ books (fst (update_status there in_id in1)) = books self.
Proof.
  intros Hid Hfind H1 H2 Hne Hs.
  assert (Hthere : books (fst (update_status self in_id in2))
                   = <[k := set_status book s2]> (books self)).
  { unfold update_status. rewrite Hid, Hfind.
    destruct H1 as [[E1 ->] | [E1 ->]], H2 as [[E2 ->] | [E2 ->]];
      try done; rewrite E2, Hs; reflexivity. }
  split; [exact Hthere|].
  unfold update_status at 1. rewrite Hid, Hthere.
  rewrite (next_with_id_insert id _ k book s2 Hfind).
  pose proof (next_with_id_Some _ _ _ _ Hfind) as [Hk _].
  assert (<[k := set_status (set_status book s2) s1]>
            (<[k := set_status book s2]> (books self)) = books self) as Hback.
  { rewrite list_insert_insert_eq. apply list_insert_id.
    rewrite Hk. f_equal. destruct book. simpl in *. by subst. }
  destruct H1 as [[E1 ->] | [E1 ->]], H2 as [[E2 ->] | [E2 ->]];
    try done; rewrite E1; cbn [fst save_data books status set_status];
    exact Hback.
Qed.

Lemma update_status_back_and_forth_witness :
  books (fst (update_status
                (fst (update_status (mkLibrary [dune; solaris] None)
                                    (lit "2") (lit "2")))
                (lit "2") (lit "1")))
  = [dune; solaris].
Proof.
  apply (update_status_back_and_forth (mkLibrary [dune; solaris] None)
           (lit "2") (lit "1") (lit "2") 2%Z 1%nat solaris
           AVAILABLE CHECKED_OUT);
    try reflexivity; try by vm_compute.
  - by left.
  - by right.
Defined.

(** ** What every sequence of operations keeps *)

Lemma strip_idemp s : strip (strip s) = strip s.
Proof.
  unfold strip at 1.
  assert (lstrip (strip s) = strip s) as ->.
  { pose proof (strip_comm (lstrip s)) as H. unfold strip in H at 1.
    rewrite lstrip_idemp in H. unfold strip. by rewrite <- H. }
  apply rstrip_id, rstrip_no_trailing_space.
Qed.

Lemma exec_Forall (P : Book → Prop) self o :
  (∀ t a y year,
     o = AddBook t a y →
     P (mkBook (generate_id self) (strip t) (strip a) year AVAILABLE)) →
  (∀ b, P b → P (set_status b AVAILABLE) ∧ P (set_status b CHECKED_OUT)) →
  Forall P (books self) → Forall P (books (exec self o)).
Proof.
  intros Hnew Hset Hall. destruct o as [t a y|i|i c]; simpl.
  - unfold add_book. destruct (py_int (strip y)) as [year|]; [|done].
    cbn [fst save_data books]. rewrite (sorted_perm _).
    apply Forall_app. split; [done|]. constructor; [by eapply Hnew | constructor].
  - unfold delete_book.
    destruct (py_int (strip i)) as [id|]; [|done].
    destruct (next_with_id id (books self)) as [[k book]|]; [|done].
    cbn [fst save_data books]. apply Forall_forall. intros b Hb.
    eapply Forall_forall in Hall; [exact Hall|].
    eapply elem_of_sublist; [exact Hb | apply sublist_delete].
  - unfold update_status.
    destruct (py_int (strip i)) as [id|]; [|done].
    destruct (next_with_id id (books self)) as [[k book]|] eqn:Hfind; [|done].
    apply next_with_id_Some in Hfind as [Hk _].
    destruct (bool_decide (strip c ∈ [ONE; TWO])); [|done].
    destruct (bool_decide (status book = _)); [done|].
    cbn [fst save_data books]. apply Forall_insert; [done|].
    pose proof (Forall_lookup_1 _ _ _ _ Hall Hk) as Hb.
    destruct (Hset book Hb). by destruct (bool_decide (strip c = ONE)).
Qed.

(** X14: on a library that starts empty, every record that any sequence
    of operations leaves has a positive id, a title and an author without
    whitespace at either end, and one of the two statuses. *)
Theorem records_program_made f0 ops :
  Forall program_made (books (run (mkLibrary [] f0) ops)).
Proof.
  induction ops as [|o ops IH] using rev_ind; [constructor|].
  rewrite run_snoc. apply exec_Forall; [| |exact IH].
  - intros t a y year _. repeat split; simpl.
    + apply generate_id_spec.
    + apply strip_idemp.
    + apply strip_idemp.
    + by left.
  - intros b (? & ? & ? & ?). by repeat split; simpl; auto.
Qed.

Lemma label_storable b :
  storable b → storable (set_status b AVAILABLE) ∧ storable (set_status b CHECKED_OUT).
Proof.
  intros (? & [? ?] & ? & [? ?] & _).
  split; repeat split; simpl; try done; try by_evaluation;
    intros x Hx; vm_compute in Hx; injection Hx as <-; reflexivity.
Qed.

Lemma exec_storable self o :
  clean o → Forall storable (books self) → Forall storable (books (exec self o)).
Proof.
  intros Ho Hall. apply exec_Forall; [|apply label_storable|done].
  intros t a y year ->. destruct Ho as ([Ht Ht'] & [Ha Ha'] & Hts & Has).
  repeat split; simpl;
    try (intros H; apply elem_of_strip in H; done);
    try by_evaluation.
  intros x Hx. vm_compute in Hx. injection Hx as <-. reflexivity.
Qed.

(** X15: a library that starts empty can be restarted at any point: when
    the title and author answers hold no semicolon and no line ending
    (U+000A or U+000D), then after any sequence of operations
    [Library(data_file)] on the backing file gives the very library in
    memory. *)
Theorem restart_gives_same_library f0 self0 ops :
  Library_init f0 = Ok self0 → books self0 = [] → Forall clean ops →
  Library_init (backing (run self0 ops)) = Ok (run self0 ops).
Proof.
  intros Hinit Hnil Hops.
  destruct (Library_init_empty f0 self0 Hinit Hnil) as [-> _].
  destruct (run_consistent f0 ops) as [[_ Hasc] Hfile].
  assert (Forall storable (books (run (mkLibrary [] f0) ops))) as Hst.
  { clear Hfile Hasc Hinit.
    induction ops as [|o ops IH] using rev_ind; [constructor|].
    apply Forall_app in Hops as [Hops Ho]. apply Forall_cons in Ho as [Ho _].
    rewrite run_snoc. apply exec_storable; [done | by apply IH]. }
  destruct (run (mkLibrary [] f0) ops) as [bs f]. cbn [books backing] in *.
  destruct Hfile as [[-> ->] | Hs]; [exact Hinit|].
  unfold saved in Hs. cbn [books backing] in Hs. subst f.
  unfold Library_init. rewrite load_data_written by done.
  simpl. by rewrite sorted_id.
Qed.

Lemma restart_gives_same_library_witness :
  Library_init (backing (run (mkLibrary [] None) session))
  = Ok (run (mkLibrary [] None) session).
Proof.
  apply (restart_gives_same_library None); [reflexivity..|].
  repeat (constructor; [first [exact I | repeat split; by_evaluation]|]).
  constructor.
Defined.

Lemma exec_ascending self o :
  ascending (books self) →
  exec self o = self ∨ (ascending (books (exec self o)) ∧ saved (exec self o)).
Proof.
  intros Hasc. destruct o as [t a y|i|i c]; simpl.
  - unfold add_book. destruct (py_int (strip y)) as [year|]; [|by left]. right.
    cbn [fst]. rewrite save_data_ascending by apply sorted_ascending.
    split; [apply sorted_ascending | done].
  - unfold delete_book.
    destruct (py_int (strip i)) as [id|]; [|by left].
    destruct (next_with_id id (books self)) as [[k book]|]; [|by left]. right.
    assert (ascending (delete k (books self))) as Hasc'.
    { eapply StronglySorted_sublist; [apply sublist_delete | exact Hasc]. }
    cbn [fst]. by rewrite save_data_ascending.
  - unfold update_status.
    destruct (py_int (strip i)) as [id|]; [|by left].
    destruct (next_with_id id (books self)) as [[k book]|] eqn:Hfind; [|by left].
    apply next_with_id_Some in Hfind as [Hk _].
    destruct (bool_decide (strip c ∈ [ONE; TWO])); [|by left].
    set (new_status := if bool_decide (strip c = ONE)
                       then AVAILABLE else CHECKED_OUT).
    destruct (bool_decide (status book = new_status)); [by left|]. right.
    assert (ascending (<[k := set_status book new_status]> (books self)))
      as Hasc'.
    { apply ascending_ids. rewrite ids_set_status by done.
      by apply ascending_ids. }
    cbn [fst]. by rewrite save_data_ascending.
Qed.

Lemma Library_init_ascending f self0 :
  Library_init f = Ok self0 → ascending (books self0).
Proof.
  unfold Library_init, load_data. destruct f as [text|].
  - destruct (comprehension from_string (file_lines text)) as [bs|e]; [|done].
    simpl. intros [= <-]. apply sorted_ascending.
  - intros [= <-]. constructor.
Qed.

Lemma run_ascending self ops :
  ascending (books self) →
  ascending (books (run self ops)) ∧ (run self ops = self ∨ saved (run self ops)).
Proof.
  intros Hasc0.
  induction ops as [|o ops IH] using rev_ind; [by split; [|left]|].
  rewrite run_snoc. destruct IH as [Hasc Hfile].
  destruct (exec_ascending (run self ops) o Hasc) as [-> | [Hasc' Hs]];
    [done | by split; [|right]].
Qed.

(** X16: whatever file the library was loaded from, its records are in
    ascending order of id at the start and after every sequence of
    operations, and once an operation has changed the library the backing
    file is the records written in that order. *)
Theorem loaded_library_ascending f self0 ops :
  Library_init f = Ok self0 →
  let self := run self0 ops in
  ascending (books self) ∧ (self = self0 ∨ saved self).
Proof.
  intros Hinit. apply run_ascending. by eapply Library_init_ascending.
Qed.

Lemma loaded_library_ascending_witness :
  ascending (books (run (mkLibrary [dune; solaris] (Some shuffled_file))
                        [DeleteBook (lit "1")])).
Proof.
  apply (loaded_library_ascending (Some shuffled_file)). by vm_compute.
Defined.

(** ** search_books *)

Lemma strip_blank s : blank s → strip s = [].
Proof.
  intros Hs. unfold strip.
  assert (lstrip s = []) as ->; [|done].
  induction Hs as [|c s Hc _ IH]; simpl; [done|]. by rewrite Hc.
Qed.

(** X17: an empty or whitespace-only query finds every record: the empty
    string occurs in every title. *)
Theorem search_books_blank_query (lower : str → str) self in_query :
  lower [] = [] → blank in_query →
  search_results lower self in_query = books self.
Proof.
  intros Hlower Hblank. unfold search_results.
  rewrite strip_blank, Hlower by done.
  induction (books self) as [|b l IH]; simpl; [done|].
  unfold matches at 1. destruct (lower (title b)); simpl; by rewrite IH.
Qed.

Lemma search_books_blank_query_witness :
  search_results lower_basic (mkLibrary [dune; solaris] None) (lit "  ")
  = [dune; solaris].
Proof.
  apply (search_books_blank_query lower_basic); [reflexivity|].
  repeat constructor.
Defined.

(** ** main *)

Section Main.

Variable lower : str → str.

Lemma main_loop_cons self in_choice stdin :
  main_loop lower self (in_choice :: stdin)
  = match menu_call lower self (strip in_choice) stdin with
    | None => (self, MENU ++ [GOODBYE], Exited)
    | Some (EOF printed) => (self, MENU ++ printed, EOFError)
    | Some (Returned self' printed stdin') =>
        and_then (MENU ++ printed) (main_loop lower self' stdin')
    end.
Proof.
  simp main_loop.
  generalize (inspect (menu_call lower self (strip in_choice) stdin)).
  intros [r Hr].
  destruct r as [[self' p stdin'|p]|]; simpl; rewrite Hr; reflexivity.
Qed.

Lemma update_status_unasked self in_id in_choice :
  py_int (strip in_id) ≫= (fun id => next_with_id id (books self)) = None →
  update_status self in_id in_choice = update_status self in_id [].
Proof.
  unfold update_status. destruct (py_int (strip in_id)) as [id|]; simpl; [|done].
  by intros ->.
Qed.

Lemma menu_call_Returned self choice stdin self' printed stdin' :
  menu_call lower self choice stdin = Some (Returned self' printed stdin') →
  (self' = self ∨ ∃ o, self' = exec self o)
  ∧ (length stdin' ≤ length stdin)%nat.
Proof.
  unfold menu_call. repeat case_match; try discriminate.
  - unfold add_book_on.
    destruct stdin as [|t [|a [|y rest]]]; try discriminate.
    destruct (add_book self t a y) as [lib out] eqn:Hop. intros [= <- <- <-].
    split; [|simpl; lia]. right. exists (AddBook t a y). simpl. by rewrite Hop.
  - unfold delete_book_on. destruct stdin as [|i rest]; [discriminate|].
    destruct (delete_book self i) as [lib out] eqn:Hop. intros [= <- <- <-].
    split; [|simpl; lia]. right. exists (DeleteBook i). simpl. by rewrite Hop.
  - unfold search_books_on. destruct stdin as [|q rest]; [discriminate|].
    destruct (search_books lower self q) as [lib out] eqn:Hop. intros [= <- <- <-].
    split; [|simpl; lia]. left.
    apply (f_equal fst) in Hop. simpl in Hop. rewrite <- Hop.
    unfold search_books. by destruct (search_results lower self q).
  - intros [= <- <- <-]. split; [|lia]. left.
    match goal with H : display_books _ _ = _ |- _ =>
      apply (f_equal fst) in H; simpl in H; rewrite <- H end.
    unfold display_books. by destruct (books_or None (books self)).
  - unfold update_status_on. destruct stdin as [|i rest]; [discriminate|].
    destruct (py_int (strip i) ≫= _) eqn:Hfound.
    + destruct rest as [|c rest]; [discriminate|].
      destruct (update_status self i c) as [lib out] eqn:Hop. intros [= <- <- <-].
      split; [|simpl; lia]. right. exists (UpdateStatus i c). simpl.
      by rewrite Hop.
    + destruct (update_status self i []) as [lib out] eqn:Hop. intros [= <- <- <-].
      split; [|simpl; lia]. right. exists (UpdateStatus i []). simpl.
      by rewrite Hop.
  - intros [= <- <- <-]. split; [by left | lia].
Qed.

Lemma main_loop_ind (P : Library → list str → Library * list str * stop → Prop) :
  (∀ self, P self [] (self, MENU, EOFError)) →
  (∀ self c stdin,
     menu_call lower self (strip c) stdin = None →
     P self (c :: stdin) (self, MENU ++ [GOODBYE], Exited)) →
  (∀ self c stdin printed,
     menu_call lower self (strip c) stdin = Some (EOF printed) →
     P self (c :: stdin) (self, MENU ++ printed, EOFError)) →
  (∀ self c stdin self' printed stdin',
     menu_call lower self (strip c) stdin
     = Some (Returned self' printed stdin') →
     P self' stdin' (main_loop lower self' stdin') →
     P self (c :: stdin)
       (and_then (MENU ++ printed) (main_loop lower self' stdin'))) →
  ∀ self stdin, P self stdin (main_loop lower self stdin).
Proof.
  intros Hnil Hexit Heof Hret self stdin.
  remember (length stdin) as n eqn:Hn. revert self stdin Hn.
  induction n as [n IH] using lt_wf_ind. intros self stdin ->.
  destruct stdin as [|c stdin]; [by simp main_loop|].
  rewrite main_loop_cons.
  destruct (menu_call lower self (strip c) stdin) as [[self' p stdin'|p]|] eqn:Hc.
  - apply Hret; [done|].
    apply menu_call_Returned in Hc as [_ Hlen].
    eapply IH; [|reflexivity]. simpl. lia.
  - by apply Heof.
  - by apply Hexit.
Qed.

Lemma main_loop_runs self stdin :
  ∃ ops, (main_loop lower self stdin).1.1 = run self ops.
Proof.
  apply (main_loop_ind (fun self stdin r => ∃ ops, r.1.1 = run self ops)).
  - intros s. by exists [].
  - intros s c l _. by exists [].
  - intros s c l p _. by exists [].
  - intros s c l s' p l' Hc [ops Hops].
    destruct (main_loop lower s' l') as [[final printed] e]. simpl in *.
    apply menu_call_Returned in Hc as [[-> | [o ->]] _].
    + by exists ops.
    + by exists (o :: ops).
Qed.

(** X18: [main] does nothing to the catalog but call the operations.
    When loading the backing file raises, [main] raises that exception.
    When it loads, then whatever is typed and however the run ends, with
    the [break] or with the [EOFError] of [input()] at the end of the
    input, the library it leaves is the loaded one after some sequence of
    [add_book], [delete_book] and [update_status] calls: its records are
    in ascending order of id, and the backing file is either untouched,
    with the library as loaded, or the records as written. *)
Theorem main_only_calls_operations f stdin :
  (∀ e, load_data f = Raise e → main lower f stdin = Raise e)
  ∧ (∀ final printed how,
       main lower f stdin = Ok (final, printed, how) →
       ∃ self0 ops,
         Library_init f = Ok self0 ∧ final = run self0 ops
         ∧ ascending (books final) ∧ (final = self0 ∨ saved final)).
Proof.
  unfold main, Library_init, mbind, result_bind. split.
  - by intros e ->.
  - intros final printed e. destruct (load_data f) as [bs|e'] eqn:Hload;
      simpl; [|discriminate].
    intros [= Hmain]. exists (mkLibrary bs f).
    destruct (main_loop_runs (mkLibrary bs f) stdin) as [ops Hops].
    rewrite Hmain in Hops. simpl in Hops. exists ops.
    split; [done|]. split; [done|]. rewrite Hops. apply run_ascending.
    apply (Library_init_ascending f).
    unfold Library_init, mbind, result_bind. by rewrite Hload.
Qed.

(** X19: the loop is left normally only through the menu: when [main_loop]
    ends with the [break], some line of the standard input, stripped, is
    "6", and the last line printed is the goodbye; the first lines printed
    are always the menu. *)
Theorem main_loop_exits_by_six self stdin :
  let '(final, printed, e) := main_loop lower self stdin in
  MENU `prefix_of` printed
  ∧ (e = Exited →
     (∃ line, line ∈ stdin ∧ strip line = SIX)
     ∧ last printed = Some GOODBYE).
Proof.
  apply (main_loop_ind (fun self stdin r =>
    let '(final, printed, e) := r in
    MENU `prefix_of` printed
    ∧ (e = Exited →
       (∃ line, line ∈ stdin ∧ strip line = SIX)
       ∧ last printed = Some GOODBYE))).
  - intros s. split; [done | discriminate].
  - intros s c l Hc. split; [by apply prefix_app_r|]. intros _. split.
    + exists c. split; [by left|].
      unfold menu_call in Hc. repeat case_match; try discriminate.
      match goal with
      | H : bool_decide (_ = SIX) = true |- _ =>
          by apply bool_decide_eq_true in H
      end.
    + by rewrite last_snoc.
  - intros s c l p _. split; [by apply prefix_app_r | discriminate].
  - intros s c l s' p l' Hc IH.
    destruct (main_loop lower s' l') as [[final printed] e]. unfold and_then.
    destruct IH as [Hpre Hexit]. split.
    + rewrite <- app_assoc. by apply prefix_app_r.
    + intros He. destruct (Hexit He) as [(line & Hin & Hline) Hlast]. split.
      * exists line. split; [|done]. right.
        assert (l' `suffix_of` l) as [pre ->]; [|apply elem_of_app; by right].
        clear -Hc. unfold menu_call, add_book_on, delete_book_on,
          search_books_on, update_status_on in Hc.
        repeat case_match; try discriminate; injection Hc as <- <- <-;
          first [ done
                | by apply suffix_cons_r
                | by apply suffix_cons_r, suffix_cons_r
                | by apply suffix_cons_r, suffix_cons_r, suffix_cons_r ].
      * by rewrite last_app, Hlast.
Qed.

Lemma main_loop_lines_of self o rest :
  main_loop lower self (lines_of self o ++ rest)
  = and_then (MENU ++ snd (match o with
                          | AddBook t a y => add_book self t a y
                          | DeleteBook i => delete_book self i
                          | UpdateStatus i c => update_status self i c
                          end))
             (main_loop lower (exec self o) rest).
Proof.
  destruct o as [t a y|i|i c]; cbn [lines_of exec].
  - cbn [app]. rewrite main_loop_cons.
    change (menu_call lower self (strip ONE) (t :: a :: y :: rest))
      with (Some (add_book_on self (t :: a :: y :: rest))).
    unfold add_book_on. by destruct (add_book self t a y).
  - cbn [app]. rewrite main_loop_cons.
    change (menu_call lower self (strip TWO) (i :: rest))
      with (Some (delete_book_on self (i :: rest))).
    unfold delete_book_on. by destruct (delete_book self i).
  - destruct (py_int (strip i) ≫= _) eqn:Hfound; cbn [app];
      rewrite main_loop_cons.
    + change (menu_call lower self (strip FIVE) (i :: c :: rest))
        with (Some (update_status_on self (i :: c :: rest))).
      unfold update_status_on. rewrite Hfound.
      by destruct (update_status self i c).
    + change (menu_call lower self (strip FIVE) (i :: rest))
        with (Some (update_status_on self (i :: rest))).
      unfold update_status_on. rewrite Hfound.
      rewrite (update_status_unasked self i c Hfound).
      by destruct (update_status self i []).
Qed.

(** X20: every sequence of operations can be typed in: fed the menu
    choices and prompt answers of the operations one after the other and
    then "6", [main_loop] ends with the [break], leaves the library those
    operations leave, and reads nothing past the "6". *)
Theorem main_loop_script self ops rest :
  let r := main_loop lower self (script self ops ++ SIX :: rest) in
  r.1.1 = run self ops ∧ r.2 = Exited.
Proof.
  revert self. induction ops as [|o ops IH]; intros self; simpl script.
  - cbn [app]. rewrite main_loop_cons.
    change (menu_call lower self (strip SIX) rest) with (@None after_call).
    done.
  - rewrite <- app_assoc, main_loop_lines_of.
    specialize (IH (exec self o)). cbv zeta in IH.
    destruct (main_loop lower (exec self o)
                (script (exec self o) ops ++ SIX :: rest))
      as [[final printed] e].
    unfold and_then. exact IH.
Qed.

End Main.

Lemma main_only_calls_operations_witness :
  ascending (books (run (mkLibrary [] None)
                        [AddBook (lit "Dune") (lit "Herbert") (lit "1965")])).
Proof.
  destruct (proj2 (main_only_calls_operations lower_basic None
                     [lit "1"; lit "Dune"; lit "Herbert"; lit "1965"])
              (run (mkLibrary [] None)
                   [AddBook (lit "Dune") (lit "Herbert") (lit "1965")])
              (MENU ++ [BOOK_ADDED] ++ MENU) EOFError)
    as (self0 & ops & _ & _ & Hasc & _); [by vm_compute | exact Hasc].
Defined.

Lemma main_loop_exits_by_six_witness :
  ∃ line, line ∈ [lit "4"; lit " 6 "; lit "1"] ∧ strip line = SIX.
Proof.
  pose proof (main_loop_exits_by_six lower_basic (mkLibrary [dune] None)
                [lit "4"; lit " 6 "; lit "1"]) as H.
  destruct (main_loop lower_basic (mkLibrary [dune] None)
              [lit "4"; lit " 6 "; lit "1"]) as [[final printed] e] eqn:Hrun.
  assert (e = Exited) as He.
  { apply (f_equal snd) in Hrun. vm_compute in Hrun. by subst e. }
  exact (proj1 (proj2 H He)).
Defined.

(** X21: no operation brings in an id that is already there: a library
    loaded with pairwise distinct ids keeps them pairwise distinct, and in
    strictly ascending order, through every sequence of operations. *)
Theorem loaded_ids_stay_distinct f self0 ops :
  Library_init f = Ok self0 → NoDup (ids self0) →
  NoDup (ids (run self0 ops)) ∧ StronglySorted Z.lt (ids (run self0 ops)).
Proof.
  intros Hinit Hnd.
  assert (consistent (run self0 ops)) as [Hnd' Hasc'].
  { induction ops as [|o ops IH] using rev_ind.
    - split; [done|]. by apply (Library_init_ascending f).
    - rewrite run_snoc.
      destruct (exec_step (run self0 ops) o IH) as [-> | [Hc _]]; done. }
  split; [done|]. apply StronglySorted_le_lt; [done|]. by apply ascending_ids.
Qed.

Lemma loaded_ids_stay_distinct_witness :
  NoDup (ids (run (mkLibrary [dune; solaris] (Some shuffled_file))
                  [AddBook (lit "Emma") (lit "Austen") (lit "1815")])).
Proof.
  apply (loaded_ids_stay_distinct (Some shuffled_file)); [by vm_compute|].
  by_evaluation.
Defined.
